(** * keep/providers/base/base_provider.py: fingerprinting, enrichment and
    grouping of alerts in [BaseProvider]

    A shallow embedding of the methods of [BaseProvider] that compute:
    [get_alert_fingerprint], [_enrich_alert], [get_alerts],
    [get_alerts_by_fingerprint], [_push_alert], [notify], [query] and
    [_extract_type].

    Conventions of the embedding.
    - A Python value is a [pyval]: [None], [bool], [int], [str], [list] and
      [dict] with [str] keys.  Floats are left out.  A [dict] is an
      association list in insertion order, which is the order [json.dumps]
      and iteration observe.
    - A [str] is a [string] whose characters are the code points below 256;
      [str.encode()] is UTF-8 on that range.
    - An exception is a value of [exn]; a computation that may raise returns
      a [result].
    - Objects that are mutated through several references (the alerts a
      provider fetched) live in a heap and are named by their address.
    - Calls that leave the process (the enrichment store, the log, the
      outbound HTTP endpoint) are recorded, in order, in a trace. *)

From Stdlib Require Import ZArith Lia Ascii String List Permutation Sorted.
From Stdlib Require Import DecimalString.
From stdpp Require Import base list strings.

Set Warnings "-register-all".

Open Scope string_scope.
Open Scope list_scope.

(** ** Exceptions and results *)

Inductive exn : Type :=
| TypeError
| KeyError
| AttributeError
| UnboundLocalError
| JSONDecodeError
| HTTPError
| StorageError
| Exception (msg : string).

Inductive result (A : Type) : Type :=
| Ok (a : A)
| Raise (e : exn).
Arguments Ok {A} a.
Arguments Raise {A} e.

(** ** hashlib.sha256 (FIPS 180-4), on bytes held as [Z] *)

Module SHA256.

Definition W32 : Z := 0x100000000.

Definition add32 (a b : Z) : Z := (a + b) mod W32.

Definition rotr (n x : Z) : Z :=
  Z.lor (Z.shiftr x n) (Z.land (Z.shiftl x (32 - n)) 0xffffffff).

Definition shr (n x : Z) : Z := Z.shiftr x n.

Definition Ch (x y z : Z) : Z :=
  Z.lxor (Z.land x y) (Z.land (Z.lxor x 0xffffffff) z).

Definition Maj (x y z : Z) : Z :=
  Z.lxor (Z.lxor (Z.land x y) (Z.land x z)) (Z.land y z).

Definition Sigma0 (x : Z) : Z := Z.lxor (Z.lxor (rotr 2 x) (rotr 13 x)) (rotr 22 x).
Definition Sigma1 (x : Z) : Z := Z.lxor (Z.lxor (rotr 6 x) (rotr 11 x)) (rotr 25 x).
Definition sigma0 (x : Z) : Z := Z.lxor (Z.lxor (rotr 7 x) (rotr 18 x)) (shr 3 x).
Definition sigma1 (x : Z) : Z := Z.lxor (Z.lxor (rotr 17 x) (rotr 19 x)) (shr 10 x).

(** The constants are fractional parts of roots of the first primes: the
    first 32 bits of the fraction of the square root for the initial hash
    value, of the cube root for the round constants. *)
Definition primes : list Z :=
  [ 2; 3; 5; 7; 11; 13; 17; 19; 23; 29; 31; 37; 41; 43; 47; 53;
    59; 61; 67; 71; 73; 79; 83; 89; 97; 101; 103; 107; 109; 113; 127; 131;
    137; 139; 149; 151; 157; 163; 167; 173; 179; 181; 191; 193; 197; 199; 211; 223;
    227; 229; 233; 239; 241; 251; 257; 263; 269; 271; 277; 281; 283; 293; 307; 311 ]%Z.

(** The largest [r] between [lo] and [hi] with [r ^ k <= n], by bisection. *)
Fixpoint root_search (fuel : nat) (k n lo hi : Z) : Z :=
  match fuel with
  | O => lo
  | S fuel' =>
      if (hi <=? lo)%Z then lo
      else
        let m := ((lo + hi + 1) / 2)%Z in
        if (m ^ k <=? n)%Z then root_search fuel' k n m hi
        else root_search fuel' k n lo (m - 1)%Z
  end.

Definition root_fraction (k p : Z) : Z :=
  (root_search 64 k (p * 2 ^ (32 * k)) 0 (2 ^ 40)) mod W32.

Definition K : list Z := Eval vm_compute in map (root_fraction 3) primes.

Definition H0 : list Z := Eval vm_compute in map (root_fraction 2) (firstn 8 primes).

(** Padding: the byte 0x80, zero bytes up to 56 modulo 64, then the length
    of the message in bits as a 64-bit big-endian integer. *)
Definition be_bytes (n : nat) (z : Z) : list Z :=
  map (fun i => Z.land (Z.shiftr z (8 * Z.of_nat i)) 0xff) (rev (seq 0 n)).

Definition pad (msg : list Z) : list Z :=
  let len := Z.of_nat (length msg) in
  let zeros := Z.to_nat ((55 - len) mod 64) in
  msg ++ [0x80%Z] ++ repeat 0%Z zeros ++ be_bytes 8 (8 * len).

Fixpoint chunks (fuel n : nat) (l : list Z) : list (list Z) :=
  match fuel with
  | O => []
  | S fuel' =>
      match l with
      | [] => []
      | _ => firstn n l :: chunks fuel' n (skipn n l)
      end
  end.

Definition word_of_bytes (bs : list Z) : Z :=
  fold_left (fun acc b => Z.lor (Z.shiftl acc 8) b) bs 0%Z.

Definition wnth (w : list Z) (i : nat) : Z := nth i w 0%Z.

(** The message schedule: sixteen words of the block, extended to 64. *)
Fixpoint extend (n : nat) (w : list Z) : list Z :=
  match n with
  | O => w
  | S n' =>
      let t := length w in
      let x := add32 (add32 (sigma1 (wnth w (t - 2))) (wnth w (t - 7)))
                     (add32 (sigma0 (wnth w (t - 15))) (wnth w (t - 16))) in
      extend n' (w ++ [x])
  end.

Definition schedule (block : list Z) : list Z :=
  extend 48 (map word_of_bytes (chunks 16 4 block)).

Record regs : Type := Regs { ra : Z; rb : Z; rc : Z; rd : Z; re : Z; rf : Z; rg : Z; rh : Z }.

Definition round (s : regs) (kw : Z * Z) : regs :=
  let '(k, w) := kw in
  let t1 := add32 (add32 (add32 (add32 (rh s) (Sigma1 (re s))) (Ch (re s) (rf s) (rg s))) k) w in
  let t2 := add32 (Sigma0 (ra s)) (Maj (ra s) (rb s) (rc s)) in
  Regs (add32 t1 t2) (ra s) (rb s) (rc s) (add32 (rd s) t1) (re s) (rf s) (rg s).

Definition compress (h : regs) (block : list Z) : regs :=
  let s := fold_left round (combine K (schedule block)) h in
  Regs (add32 (ra h) (ra s)) (add32 (rb h) (rb s)) (add32 (rc h) (rc s)) (add32 (rd h) (rd s))
       (add32 (re h) (re s)) (add32 (rf h) (rf s)) (add32 (rg h) (rg s)) (add32 (rh h) (rh s)).

Definition init : regs :=
  Regs (wnth H0 0) (wnth H0 1) (wnth H0 2) (wnth H0 3) (wnth H0 4) (wnth H0 5) (wnth H0 6) (wnth H0 7).

Definition digest (msg : list Z) : list Z :=
  let p := pad msg in
  let s := fold_left compress (chunks (length p) 64 p) init in
  flat_map (be_bytes 4) [ra s; rb s; rc s; rd s; re s; rf s; rg s; rh s].

Definition hex_digit (z : Z) : ascii :=
  if (z <? 10)%Z then ascii_of_N (Z.to_N (48 + z)) else ascii_of_N (Z.to_N (87 + z)).

Fixpoint hex (bs : list Z) : string :=
  match bs with
  | [] => EmptyString
  | b :: bs' => String (hex_digit (Z.shiftr b 4)) (String (hex_digit (Z.land b 0xf)) (hex bs'))
  end.

End SHA256.

(** The hash object: [update] appends to the message, [hexdigest] hashes
    everything fed so far. *)
Definition sha256_new : list Z := [].
Definition sha256_update (h : list Z) (data : list Z) : list Z := h ++ data.
Definition sha256_hexdigest (h : list Z) : string := SHA256.hex (SHA256.digest h).


(** ** Python values *)

Inductive pyval : Type :=
| PNone
| PBool (b : bool)
| PInt (z : Z)
| PStr (s : string)
| PList (l : list pyval)
| PDict (d : list (string * pyval)).

(** A [dict] with [str] keys, in insertion order. *)
Definition dict : Type := list (string * pyval).

(** [bool(v)]: what [if v:] and [not v] test. *)
Definition truthy (v : pyval) : bool :=
  match v with
  | PNone => false
  | PBool b => b
  | PInt z => negb (z =? 0)%Z
  | PStr s => negb (String.eqb s "")
  | PList l => match l with [] => false | _ => true end
  | PDict d => match d with [] => false | _ => true end
  end.

Definition isinstance_dict (v : pyval) : bool :=
  match v with PDict _ => true | _ => false end.

Definition isinstance_list_or_dict (v : pyval) : bool :=
  match v with PList _ | PDict _ => true | _ => false end.

(** [d.get(k)] as an option, [d[k] = v] (an existing key keeps its place),
    [k in d]. *)
Fixpoint dict_get (d : dict) (k : string) : option pyval :=
  match d with
  | [] => None
  | (k', v) :: d' => if String.eqb k k' then Some v else dict_get d' k
  end.

Fixpoint dict_set (d : dict) (k : string) (v : pyval) : dict :=
  match d with
  | [] => [(k, v)]
  | (k', v') :: d' =>
      if String.eqb k k' then (k, v) :: d' else (k', v') :: dict_set d' k v
  end.

Definition dict_contains (d : dict) (k : string) : bool :=
  match dict_get d k with Some _ => true | None => false end.

(** [d.get(k, default)] *)
Definition dict_get_default (d : dict) (k : string) (dflt : pyval) : pyval :=
  match dict_get d k with Some v => v | None => dflt end.

(** ** Strings *)

(** [s.startswith(p)] *)
Fixpoint startswith (p s : string) : bool :=
  match p, s with
  | EmptyString, _ => true
  | String a p', String b s' => Ascii.eqb a b && startswith p' s'
  | String _ _, EmptyString => false
  end.

(** [s.replace(old, "")]: every occurrence of [old], leftmost first and not
    overlapping, is removed.  [skip] counts the characters of the occurrence
    being removed that are still to be dropped. *)
Fixpoint remove_from (old : string) (skip : nat) (s : string) : string :=
  match s with
  | EmptyString => EmptyString
  | String a s' =>
      match skip with
      | S k => remove_from old k s'
      | O =>
          if startswith old s
          then remove_from old (String.length old - 1) s'
          else String a (remove_from old 0 s')
      end
  end.

Definition str_remove (old s : string) : string :=
  if String.eqb old "" then s else remove_from old 0 s.

(** [s.split(sep)] for a separator of one character *)
Fixpoint split_on (sep : ascii) (s : string) : list string :=
  match s with
  | EmptyString => [EmptyString]
  | String a s' =>
      if Ascii.eqb a sep then EmptyString :: split_on sep s'
      else match split_on sep s' with
           | h :: t => String a h :: t
           | [] => [String a EmptyString]
           end
  end.

(** [sub in s] for two strings *)
Fixpoint str_contains (sub s : string) : bool :=
  startswith sub s ||
  match s with
  | EmptyString => false
  | String _ s' => str_contains sub s'
  end.

(** [s.encode()]: UTF-8 of the code points below 256. *)
Definition utf8_of_char (a : ascii) : list Z :=
  let c := Z.of_N (N_of_ascii a) in
  if (c <? 128)%Z then [c]
  else [Z.lor 0xc0 (Z.shiftr c 6); Z.lor 0x80 (Z.land c 0x3f)].

Definition encode (s : string) : list Z :=
  flat_map utf8_of_char (list_ascii_of_string s).

Definition string_of_Z (z : Z) : string := NilZero.string_of_int (Z.to_int z).

Definition hex2 (c : Z) : string :=
  String (SHA256.hex_digit (Z.shiftr c 4)) (String (SHA256.hex_digit (Z.land c 0xf)) EmptyString).

Definition char_code (a : ascii) : Z := Z.of_N (N_of_ascii a).

Definition backslash : ascii := ascii_of_N 92.
Definition dquote_char : ascii := ascii_of_N 34.
Definition squote_char : ascii := ascii_of_N 39.

(** ** json.dumps with its defaults: [ensure_ascii=True], separators
    [", "] and [": "], keys in the order of the dict. *)

Definition json_escape_char (a : ascii) : string :=
  let c := char_code a in
  if (c =? 34)%Z then String backslash (String a EmptyString)
  else if (c =? 92)%Z then String backslash (String a EmptyString)
  else if (c =? 10)%Z then "\n"
  else if (c =? 13)%Z then "\r"
  else if (c =? 9)%Z then "\t"
  else if (c =? 8)%Z then "\b"
  else if (c =? 12)%Z then "\f"
  else if ((32 <=? c) && (c <=? 126))%Z then String a EmptyString
  else "\u00" +:+ hex2 c.

Fixpoint json_escape (s : string) : string :=
  match s with
  | EmptyString => EmptyString
  | String a s' => json_escape_char a +:+ json_escape s'
  end.

Definition dquote : string := String dquote_char EmptyString.

Definition json_quote (s : string) : string := dquote +:+ json_escape s +:+ dquote.

Fixpoint json_dumps (v : pyval) : string :=
  match v with
  | PNone => "null"
  | PBool true => "true"
  | PBool false => "false"
  | PInt z => string_of_Z z
  | PStr s => json_quote s
  | PList l => "[" +:+ String.concat ", " (map json_dumps l) +:+ "]"
  | PDict d =>
      "{" +:+ String.concat ", "
                 (map (fun kv => json_quote (fst kv) +:+ ": " +:+ json_dumps (snd kv)) d)
          +:+ "}"
  end.

(** ** repr() and str() *)

(** The characters [repr] of a [str] writes as an escape: controls, DEL,
    and in the upper half the C1 controls, the no-break space and the soft
    hyphen, which [str.isprintable] rejects. *)
Definition repr_unprintable (c : Z) : bool :=
  ((c <? 32) || (c =? 127) || ((128 <=? c) && (c <=? 160)) || (c =? 173))%Z.

Definition repr_char (quote : ascii) (a : ascii) : string :=
  let c := char_code a in
  if Ascii.eqb a quote || (c =? 92)%Z then String backslash (String a EmptyString)
  else if (c =? 9)%Z then "\t"
  else if (c =? 10)%Z then "\n"
  else if (c =? 13)%Z then "\r"
  else if repr_unprintable c then "\x" +:+ hex2 c
  else String a EmptyString.

Fixpoint repr_chars (quote : ascii) (s : string) : string :=
  match s with
  | EmptyString => EmptyString
  | String a s' => repr_char quote a +:+ repr_chars quote s'
  end.

Definition has_char (c : ascii) (s : string) : bool :=
  existsb (Ascii.eqb c) (list_ascii_of_string s).

(** Single quotes, unless the text has a single quote and no double one. *)
Definition repr_str (s : string) : string :=
  let quote := if has_char squote_char s && negb (has_char dquote_char s)
               then dquote_char else squote_char in
  String quote (repr_chars quote s) +:+ String quote EmptyString.

Fixpoint py_repr (v : pyval) : string :=
  match v with
  | PNone => "None"
  | PBool true => "True"
  | PBool false => "False"
  | PInt z => string_of_Z z
  | PStr s => repr_str s
  | PList l => "[" +:+ String.concat ", " (map py_repr l) +:+ "]"
  | PDict d =>
      "{" +:+ String.concat ", "
                 (map (fun kv => repr_str (fst kv) +:+ ": " +:+ py_repr (snd kv)) d)
          +:+ "}"
  end.

(** [str(v)]: the text itself for a [str], the repr otherwise. *)
Definition py_str (v : pyval) : string :=
  match v with
  | PStr s => s
  | _ => py_repr v
  end.

(** ** AlertDto

    Modelled from the spec: the class [AlertDto] of [keep.api.models.alert]
    is not part of this file.  An alert is an object whose attributes are
    the fields of the data model ([id], [name], [status], [lastReceived],
    [fingerprint], [providerId], ...) and whatever an enrichment assigned
    to it; [alert.dict()] is the mapping of those attributes. *)

Record AlertDto : Type := mkAlertDto { attributes : dict }.

(** [alert.name], [operator.attrgetter(name)(alert)] *)
Definition getattr (a : AlertDto) (name : string) : result pyval :=
  match dict_get (attributes a) name with
  | Some v => Ok v
  | None => Raise AttributeError
  end.

(** [setattr(alert, name, v)], [alert.name = v] *)
Definition setattr (a : AlertDto) (name : string) (v : pyval) : AlertDto :=
  mkAlertDto (dict_set (attributes a) name v).

(** [alert.dict()] *)
Definition alert_dict (a : AlertDto) : dict := attributes a.

(** ** BaseProvider.get_alert_fingerprint (static) *)

(** One turn of the loop over [fingerprint_fields]; [fingerprint] is the
    hash object. *)
Definition fingerprint_step (event_dict : dict) (fingerprint : list Z)
    (fingerprint_field : string) : list Z :=
  let fingerprint_field_value := dict_get_default event_dict fingerprint_field PNone in
  let fingerprint_field_value :=
    if isinstance_list_or_dict fingerprint_field_value
    then PStr (json_dumps fingerprint_field_value)
    else fingerprint_field_value in
  if truthy fingerprint_field_value
  then sha256_update fingerprint (encode (py_str fingerprint_field_value))
  else fingerprint.

Definition get_alert_fingerprint (alert : AlertDto) (fingerprint_fields : list string)
    : result pyval :=
  match fingerprint_fields with
  | [] => getattr alert "name"
  | _ =>
      let fingerprint := sha256_new in
      let event_dict := alert_dict alert in
      let fingerprint := fold_left (fingerprint_step event_dict) fingerprint_fields fingerprint in
      Ok (PStr (sha256_hexdigest fingerprint))
  end.

(** ** Equality, order and hashing of values *)

Definition as_number (v : pyval) : option Z :=
  match v with
  | PBool b => Some (if b then 1 else 0)%Z
  | PInt z => Some z
  | _ => None
  end.

(** [a == b]: numbers by value ([True == 1]), lists element by element,
    dicts as mappings whatever the insertion order. *)
Fixpoint py_eq (a b : pyval) : bool :=
  match a, b with
  | PNone, PNone => true
  | PBool x, _ =>
      match as_number b with Some y => ((if x then 1 else 0) =? y)%Z | None => false end
  | PInt x, _ =>
      match as_number b with Some y => (x =? y)%Z | None => false end
  | PStr s, PStr t => String.eqb s t
  | PList l, PList m =>
      (fix all2 (l : list pyval) (m : list pyval) {struct l} : bool :=
         match l, m with
         | [], [] => true
         | x :: l', y :: m' => py_eq x y && all2 l' m'
         | _, _ => false
         end) l m
  | PDict d, PDict e =>
      Nat.eqb (length d) (length e) &&
      forallb (fun kv => match dict_get e (fst kv) with
                         | Some v' => py_eq (snd kv) v'
                         | None => false
                         end) d
  | _, _ => false
  end.

(** [hash(v)] succeeds: lists and dicts are unhashable. *)
Definition hashable (v : pyval) : bool :=
  match v with
  | PList _ | PDict _ => false
  | _ => true
  end.

(** [a < b] as [sorted] applies it to the keys of a grouping: numbers by
    value, strings by code points, [TypeError] for [None] and for operands
    of different kinds.  Two lists raise here as well, although Python
    orders them: a list is unhashable, so a grouping keyed by lists ends
    in [TypeError] whether it is raised by the sort or by the dict. *)
Definition py_lt (a b : pyval) : result bool :=
  match as_number a, as_number b with
  | Some x, Some y => Ok (x <? y)%Z
  | _, _ =>
      match a, b with
      | PStr s, PStr t => Ok (String.ltb s t)
      | _, _ => Raise TypeError
      end
  end.

(** A mapping with hashable keys of any kind, in insertion order
    ([_enrichments], [grouped_alerts]). *)
Fixpoint assoc_get {V : Type} (d : list (pyval * V)) (k : pyval) : option V :=
  match d with
  | [] => None
  | (k', v) :: d' => if py_eq k k' then Some v else assoc_get d' k
  end.

Fixpoint assoc_set {V : Type} (d : list (pyval * V)) (k : pyval) (v : V) : list (pyval * V) :=
  match d with
  | [] => [(k, v)]
  | (k', v') :: d' =>
      if py_eq k k' then (k', v) :: d' else (k', v') :: assoc_set d' k v
  end.

(** [d[k] = v], which hashes [k] *)
Definition setitem {V : Type} (d : list (pyval * V)) (k : pyval) (v : V)
    : result (list (pyval * V)) :=
  if hashable k then Ok (assoc_set d k v) else Raise TypeError.

(** [k in v] and [v[k]] for a [str] key [k] *)
Definition py_contains (v : pyval) (k : string) : result bool :=
  match v with
  | PDict d => Ok (dict_contains d k)
  | PList l => Ok (existsb (py_eq (PStr k)) l)
  | PStr s => Ok (str_contains k s)
  | PNone | PBool _ | PInt _ => Raise TypeError
  end.

Definition py_getitem (v : pyval) (k : string) : result pyval :=
  match v with
  | PDict d => match dict_get d k with Some x => Ok x | None => Raise KeyError end
  | _ => Raise TypeError
  end.

(** ** The world: heap of alerts and trace of outside calls *)

Definition ref : Type := nat.

(** One stored enrichment: a row of the enrichment store. *)
Record AlertEnrichment : Type := mkAlertEnrichment {
  alert_fingerprint : string;
  enrichments : dict
}.

Inductive event : Type :=
| Log (level : string) (msg : string)
| CallGetEnrichments (tenant_id : string) (fingerprints : list pyval)
| CallEnrichAlert (tenant_id : string) (fingerprint : pyval) (fields : list (pyval * pyval))
| CallPost (url : string) (body : dict) (api_key : string).

Record world : Type := mkWorld {
  heap : ref -> AlertDto;
  trace : list event;
  drawn : nat
}.

Definition M (A : Type) : Type := world -> result A * world.

Definition ret {A} (a : A) : M A := fun w => (Ok a, w).

Definition bind {A B} (m : M A) (k : A -> M B) : M B :=
  fun w => match m w with
           | (Ok a, w') => k a w'
           | (Raise e, w') => (Raise e, w')
           end.

Notation "x <- m ;; k" := (bind m (fun x => k))
  (at level 100, m at next level, right associativity).
Notation "m ;;; k" := (bind m (fun _ => k))
  (at level 100, right associativity).

Definition raise {A} (e : exn) : M A := fun w => (Raise e, w).

Definition lift {A} (r : result A) : M A := fun w => (r, w).

(** [try: m  except Exception: handler] *)
Definition try_except {A} (m : M A) (handler : exn -> M A) : M A :=
  fun w => match m w with
           | (Ok a, w') => (Ok a, w')
           | (Raise e, w') => handler e w'
           end.

Definition emit (e : event) : M unit :=
  fun w => (Ok tt, mkWorld (heap w) (trace w ++ [e]) (drawn w)).

Definition deref (r : ref) : M AlertDto := fun w => (Ok (heap w r), w).

Definition modify (r : ref) (f : AlertDto -> AlertDto) : M unit :=
  fun w => (Ok tt, mkWorld (fun r' => if Nat.eqb r' r then f (heap w r) else heap w r')
                           (trace w) (drawn w)).

(** [for x in l: body(x)] *)
Fixpoint for_each {A} (l : list A) (body : A -> M unit) : M unit :=
  match l with
  | [] => ret tt
  | x :: l' => body x ;;; for_each l' body
  end.

(** [[f(x) for x in l]] *)
Fixpoint map_m {A B} (f : A -> M B) (l : list A) : M (list B) :=
  match l with
  | [] => ret []
  | x :: l' => y <- f x ;; ys <- map_m f l' ;; ret (y :: ys)
  end.

(** The calls an event may be: was the enrichment store reached? *)
Definition is_store_call (e : event) : bool :=
  match e with
  | CallGetEnrichments _ _ | CallEnrichAlert _ _ _ => true
  | _ => false
  end.

(** ** What the module imports and what a provider supplies *)

(** The functions [base_provider.py] imports from outside this file.  The
    store and the HTTP endpoint may raise. *)
Class Collaborators : Type := {
  (** [keep.api.core.db.enrich_alert(tenant_id, fingerprint, enrichments)] *)
  enrich_alert : string -> pyval -> list (pyval * pyval) -> result unit;
  (** [keep.api.core.db.get_enrichments(tenant_id, fingerprints)]; a row
      may be [None] *)
  get_enrichments : string -> list pyval -> result (list (option AlertEnrichment));
  (** [keep.api.utils.enrichment_helpers.parse_and_enrich_deleted_and_assignees],
      which works on the alert in place *)
  parse_and_enrich_deleted_and_assignees : AlertDto -> dict -> AlertDto;
  (** [json.loads] *)
  json_loads : pyval -> result pyval;
  (** the n-th value [str(uuid.uuid4())] returns *)
  uuid4 : nat -> string;
  (** [datetime.datetime.now()] *)
  now : pyval;
  (** [os.environ] at ["KEEP_API_URL"] *)
  KEEP_API_URL : option string;
  (** [requests.post(url, json=..., headers=...)]: the status of the
      response *)
  requests_post : string -> dict -> string -> result Z
}.

(** [foreach_context["value"]]: one item, or a tuple of items when the loop
    is zipped. *)
Inductive foreach_value : Type :=
| ForeachItem (v : pyval)
| ForeachZipped (items : list pyval).

(** [context_manager.event_context]: [None], a dict or an [AlertDto]. *)
Inductive event_context_value : Type :=
| EventNone
| EventDict (d : dict)
| EventDto (a : AlertDto).

Record ContextManager : Type := mkContextManager {
  tenant_id : string;
  api_key : string;
  (** the value under ["value"] of [foreach_context], if the key is there *)
  foreach_context : option foreach_value;
  event_context : event_context_value
}.

(** A concrete provider: its identity, its context, and the abstract
    [_get_alerts]. *)
Class Provider : Type := {
  provider_id : string;
  provider_type : string;
  context_manager : ContextManager;
  _get_alerts : M (list ref)
}.

Definition logger (level msg : string) : M unit := emit (Log level msg).

Definition draw_uuid4 `{Collaborators} : M string :=
  fun w => (Ok (uuid4 (drawn w)), mkWorld (heap w) (trace w) (S (drawn w))).

Section BaseProvider.

Context {C : Collaborators} {P : Provider}.

(** ** BaseProvider._enrich_alert *)

Definition foreach_truthy (f : option foreach_value) : bool :=
  match f with
  | None => false
  | Some (ForeachItem v) => truthy v
  | Some (ForeachZipped items) => match items with [] => false | _ => true end
  end.

Definition event_context_truthy (e : event_context_value) : bool :=
  match e with
  | EventNone => false
  | EventDict d => truthy (PDict d)
  | EventDto _ => true
  end.

(** [x.get("fingerprint")] on the loop item *)
Definition item_get_fingerprint (v : pyval) : result pyval :=
  match v with
  | PDict d => Ok (dict_get_default d "fingerprint" PNone)
  | _ => Raise AttributeError
  end.

(** Lines 136 to 156: where the fingerprint is taken from. *)
Definition extract_fingerprint (results : pyval) : result pyval :=
  match py_contains results "fingerprint" with
  | Raise e => Raise e
  | Ok true => py_getitem results "fingerprint"
  | Ok false =>
      if foreach_truthy (foreach_context context_manager) then
        match foreach_context context_manager with
        | Some (ForeachZipped (first :: _)) => item_get_fingerprint first
        | Some (ForeachItem v) => item_get_fingerprint v
        | _ => Ok PNone
        end
      else if event_context_truthy (event_context context_manager) then
        match event_context context_manager with
        | EventDict d => Ok (dict_get_default d "fingerprint" PNone)
        | EventDto a => getattr a "fingerprint"
        | EventNone => Ok PNone
        end
      else Ok PNone
  end.

(** [r = results; for part in parts: r = r[part]] *)
Fixpoint walk (r : pyval) (parts : list string) : result pyval :=
  match parts with
  | [] => Ok r
  | part :: parts' =>
      match py_getitem r part with
      | Ok r' => walk r' parts'
      | Raise e => Raise e
      end
  end.

Definition str_method (v : pyval) : result string :=
  match v with
  | PStr s => Ok s
  | _ => Raise AttributeError
  end.

(** The body of the [try] of one turn of the loop over [enrichments]. *)
Definition enrich_one (results : pyval) (_enrichments : list (pyval * pyval))
    (enrichment : pyval) : result (list (pyval * pyval)) :=
  match py_getitem enrichment "value" with
  | Raise e => Raise e
  | Ok value =>
      match str_method value with
      | Raise e => Raise e
      | Ok s =>
          if startswith "results." s then
            let val := str_remove "results." s in
            let parts := split_on "." val in
            match walk results parts with
            | Raise e => Raise e
            | Ok r =>
                match py_getitem enrichment "key" with
                | Raise e => Raise e
                | Ok key => setitem _enrichments key r
                end
            end
          else
            match py_getitem enrichment "key" with
            | Raise e => Raise e
            | Ok key => setitem _enrichments key value
            end
      end
  end.

(** The loop of lines 166 to 184: an instruction that raises is logged and
    skipped. *)
Fixpoint compute_enrichments (results : pyval) (enrichments : list pyval)
    (_enrichments : list (pyval * pyval)) : M (list (pyval * pyval)) :=
  match enrichments with
  | [] => ret _enrichments
  | enrichment :: rest =>
      match enrich_one results _enrichments enrichment with
      | Ok _enrichments' => compute_enrichments results rest _enrichments'
      | Raise _ =>
          logger "error" "Failed to enrich alert" ;;;
          compute_enrichments results rest _enrichments
      end
  end.

Definition _enrich_alert (enrichments : list pyval) (results : pyval) : M unit :=
  logger "debug" "Extracting the fingerprint from the alert" ;;;
  fingerprint <- lift (extract_fingerprint results) ;;
  if negb (truthy fingerprint) then
    logger "error" "No fingerprint found for alert enrichment" ;;;
    raise (Exception "No fingerprint found for alert enrichment")
  else
    logger "debug" "Fingerprint extracted" ;;;
    _enrichments <- compute_enrichments results enrichments [] ;;
    logger "info" "Enriching alert" ;;;
    try_except
      (emit (CallEnrichAlert (tenant_id context_manager) fingerprint _enrichments) ;;;
       lift (enrich_alert (tenant_id context_manager) fingerprint _enrichments))
      (fun e => logger "error" "Failed to enrich alert in db" ;;; raise e) ;;;
    logger "info" "Alert enriched".

(** ** BaseProvider.get_alerts *)

Definition get_alerts : M (list ref) :=
  alerts <- _get_alerts ;;
  for_each alerts (fun alert => modify alert (fun a => setattr a "providerId" (PStr provider_id))) ;;;
  ret alerts.

(** ** BaseProvider.get_alerts_by_fingerprint *)

(** [sorted(l, key=...)] on the keys already computed: a stable sort that
    only asks whether one key is below another. *)
Fixpoint insert_by_key (x : pyval * ref) (l : list (pyval * ref))
    : result (list (pyval * ref)) :=
  match l with
  | [] => Ok [x]
  | y :: l' =>
      match py_lt (fst y) (fst x) with
      | Raise e => Raise e
      | Ok true =>
          match insert_by_key x l' with
          | Ok r => Ok (y :: r)
          | Raise e => Raise e
          end
      | Ok false => Ok (x :: y :: l')
      end
  end.

Fixpoint sort_by_key (l : list (pyval * ref)) : result (list (pyval * ref)) :=
  match l with
  | [] => Ok []
  | x :: l' =>
      match sort_by_key l' with
      | Ok s => insert_by_key x s
      | Raise e => Raise e
      end
  end.

(** [get_attr = operator.attrgetter("fingerprint")] paired with the alert *)
Definition with_key (name : string) (alert : ref) : M (pyval * ref) :=
  a <- deref alert ;;
  k <- lift (getattr a name) ;;
  ret (k, alert).

Definition sorted_by_attr (name : string) (alerts : list ref) : M (list ref) :=
  keyed <- map_m (with_key name) alerts ;;
  s <- lift (sort_by_key keyed) ;;
  ret (map snd s).

(** [itertools.groupby]: the runs of consecutive equal keys, each under the
    key of its first element. *)
Fixpoint groupby (l : list (pyval * ref)) : list (pyval * list ref) :=
  match l with
  | [] => []
  | (k, r) :: l' =>
      match groupby l' with
      | (k', g) :: rest =>
          if py_eq k k' then (k, r :: g) :: rest else (k, [r]) :: (k', g) :: rest
      | [] => [(k, [r])]
      end
  end.

(** [{fingerprint: list(alerts) for fingerprint, alerts in ...}] *)
Fixpoint dict_of_groups (groups : list (pyval * list ref)) (acc : list (pyval * list ref))
    : result (list (pyval * list ref)) :=
  match groups with
  | [] => Ok acc
  | (k, g) :: rest =>
      match setitem acc k g with
      | Ok acc' => dict_of_groups rest acc'
      | Raise e => Raise e
      end
  end.

(** The [setattr] loop over the keys of one stored enrichment. *)
Definition overlay (fields : dict) (a : AlertDto) : AlertDto :=
  fold_left (fun a enrichment =>
               setattr a enrichment (dict_get_default fields enrichment PNone))
            (map fst fields) a.

Definition enrich_group (grouped_alerts : list (pyval * list ref))
    (alert_enrichment : option AlertEnrichment) : M unit :=
  match alert_enrichment with
  | None => ret tt
  | Some row =>
      match assoc_get grouped_alerts (PStr (alert_fingerprint row)) with
      | None => raise TypeError
      | Some alerts_to_enrich =>
          for_each alerts_to_enrich (fun alert_to_enrich =>
            modify alert_to_enrich
              (fun a => parse_and_enrich_deleted_and_assignees a (enrichments row)) ;;;
            modify alert_to_enrich (overlay (enrichments row)))
      end
  end.

Definition get_alerts_by_fingerprint (tenant : string) : M (list (pyval * list ref)) :=
  alerts <- get_alerts ;;
  match alerts with
  | [] => ret []
  | _ =>
      sorted_alerts <- sorted_by_attr "fingerprint" alerts ;;
      keyed <- map_m (with_key "fingerprint") sorted_alerts ;;
      grouped_alerts <- lift (dict_of_groups (groupby keyed) []) ;;
      emit (CallGetEnrichments tenant (map fst grouped_alerts)) ;;;
      pulled_alerts_enrichments <- lift (get_enrichments tenant (map fst grouped_alerts)) ;;
      for_each pulled_alerts_enrichments (enrich_group grouped_alerts) ;;;
      ret grouped_alerts
  end.

(** ** BaseProvider._push_alert *)

(** Reading a local name: [UnboundLocalError] while nothing was assigned
    to it. *)
Definition read_local (x : option pyval) : M pyval :=
  match x with
  | Some v => ret v
  | None => raise UnboundLocalError
  end.

(** Modelled from the spec: the constructor [AlertDto(...)] with the
    defaults of [_push_alert]; the class and its validation are not part of
    this file.  [AlertStatus.FIRING] and [AlertSeverity.INFO] are the
    spec's values firing and info. *)
Definition build_alert_model (alert_data : dict) (id event_id : string) : AlertDto :=
  let queue := PStr "alert-from-event-queue" in
  mkAlertDto
    [ ("id", dict_get_default alert_data "id" (PStr id));
      ("name", dict_get_default alert_data "name" queue);
      ("status", dict_get_default alert_data "status" (PStr "firing"));
      ("lastReceived", dict_get_default alert_data "lastReceived" now);
      ("environment", dict_get_default alert_data "environment" queue);
      ("isDuplicate", dict_get_default alert_data "isDuplicate" (PBool false));
      ("duplicateReason", dict_get_default alert_data "duplicateReason" PNone);
      ("service", dict_get_default alert_data "service" queue);
      ("source", dict_get_default alert_data "source" (PList [PStr provider_type]));
      ("message", dict_get_default alert_data "message" queue);
      ("description", dict_get_default alert_data "description" queue);
      ("severity", dict_get_default alert_data "severity" (PStr "info"));
      ("pushed", dict_get_default alert_data "pushed" (PBool false));
      ("event_id", dict_get_default alert_data "event_id" (PStr event_id));
      ("url", dict_get_default alert_data "url" PNone);
      ("fingerprint", dict_get_default alert_data "fingerprint" PNone) ].

Definition _push_alert (alert : pyval) : M unit :=
  (* [alert_data] is a local name with nothing assigned to it yet *)
  let alert_data_unbound : option pyval := None in
  alert_data <-
    (if negb (isinstance_dict alert) then
       try_except (lift (json_loads alert))
                  (fun _ => read_local alert_data_unbound)
     else ret alert) ;;
  match alert_data with
  | PDict alert_data =>
      id <- draw_uuid4 ;;
      event_id <- draw_uuid4 ;;
      let alert_model := build_alert_model alert_data id event_id in
      match KEEP_API_URL with
      | None => raise KeyError
      | Some base =>
          let url := base +:+ "/alerts/event" in
          emit (CallPost url (alert_dict alert_model) (api_key context_manager)) ;;;
          status <- lift (requests_post url (alert_dict alert_model) (api_key context_manager)) ;;
          if ((400 <=? status) && (status <? 600))%Z
          then logger "error" "Failed to push alert"
          else logger "info" "Alert pushed successfully"
      end
  | _ =>
      logger "warning"
        "We currently support only alert represented as a dict, dismissing alert"
  end.

End BaseProvider.

(** ** A json.loads for the examples

    [json.loads] is the standard library's.  The methods above take it from
    [Collaborators]; the examples below need one that runs.  This one reads
    the JSON texts whose value is a [pyval]: no fraction or exponent in a
    number, escapes [\uXXXX] below 256 only. *)

Module Json.

Definition is_ws (a : ascii) : bool :=
  let c := char_code a in ((c =? 32) || (c =? 9) || (c =? 10) || (c =? 13))%Z.

Fixpoint skip_ws (s : list ascii) : list ascii :=
  match s with
  | a :: s' => if is_ws a then skip_ws s' else s
  | [] => []
  end.

Definition is_digit (a : ascii) : bool :=
  let c := char_code a in ((48 <=? c) && (c <=? 57))%Z.

Fixpoint digits (acc : Z) (s : list ascii) : Z * list ascii :=
  match s with
  | a :: s' => if is_digit a then digits (10 * acc + (char_code a - 48))%Z s' else (acc, s)
  | [] => (acc, [])
  end.

Fixpoint expect (lit s : list ascii) : option (list ascii) :=
  match lit, s with
  | [], _ => Some s
  | a :: lit', b :: s' => if Ascii.eqb a b then expect lit' s' else None
  | _ :: _, [] => None
  end.

Definition hex_value (a : ascii) : option Z :=
  let c := char_code a in
  if ((48 <=? c) && (c <=? 57))%Z then Some (c - 48)%Z
  else if ((97 <=? c) && (c <=? 102))%Z then Some (c - 87)%Z
  else if ((65 <=? c) && (c <=? 70))%Z then Some (c - 55)%Z
  else None.

Definition simple_escape (a : ascii) : option ascii :=
  let c := char_code a in
  if (c =? 34)%Z then Some a
  else if (c =? 92)%Z then Some a
  else if (c =? 47)%Z then Some a
  else if (c =? 98)%Z then Some (ascii_of_N 8)
  else if (c =? 102)%Z then Some (ascii_of_N 12)
  else if (c =? 110)%Z then Some (ascii_of_N 10)
  else if (c =? 114)%Z then Some (ascii_of_N 13)
  else if (c =? 116)%Z then Some (ascii_of_N 9)
  else None.

(** The text of a string after its opening quote, up to the closing one. *)
Fixpoint string_body (s : list ascii) : option (string * list ascii) :=
  match s with
  | [] => None
  | a :: s' =>
      if Ascii.eqb a dquote_char then Some (EmptyString, s')
      else if Ascii.eqb a backslash then
        match s' with
        | u :: s'' =>
            if Ascii.eqb u "u" then
              match s'' with
              | h1 :: h2 :: h3 :: h4 :: s3 =>
                  match hex_value h1, hex_value h2, hex_value h3, hex_value h4 with
                  | Some 0%Z, Some 0%Z, Some x, Some y =>
                      match string_body s3 with
                      | Some (t, r) => Some (String (ascii_of_N (Z.to_N (16 * x + y))) t, r)
                      | None => None
                      end
                  | _, _, _, _ => None
                  end
              | _ => None
              end
            else
              match simple_escape u with
              | Some c =>
                  match string_body s'' with
                  | Some (t, r) => Some (String c t, r)
                  | None => None
                  end
              | None => None
              end
        | [] => None
        end
      else if (char_code a <? 32)%Z then None
      else
        match string_body s' with
        | Some (t, r) => Some (String a t, r)
        | None => None
        end
  end.

(** An integer: an optional minus, then 0 or a run of digits that does not
    start with 0; a fraction or an exponent is not read. *)
Definition number (s : list ascii) : option (Z * list ascii) :=
  let '(neg, s1) := match s with
                    | a :: s' => if Ascii.eqb a "-" then (true, s') else (false, s)
                    | [] => (false, s)
                    end in
  match s1 with
  | d :: s2 =>
      if is_digit d then
        let '(n, r) := if Ascii.eqb d "0" then (0%Z, s2) else digits 0 s1 in
        match r with
        | c :: _ =>
            if Ascii.eqb c "." || Ascii.eqb c "e" || Ascii.eqb c "E" then None
            else Some (if neg then (- n)%Z else n, r)
        | [] => Some (if neg then (- n)%Z else n, r)
        end
      else None
  | [] => None
  end.

Fixpoint value (fuel : nat) (s : list ascii) : option (pyval * list ascii) :=
  match fuel with
  | O => None
  | S fuel' =>
      match skip_ws s with
      | [] => None
      | a :: s' =>
          if Ascii.eqb a "n" then
            match expect (list_ascii_of_string "ull") s' with
            | Some r => Some (PNone, r) | None => None end
          else if Ascii.eqb a "t" then
            match expect (list_ascii_of_string "rue") s' with
            | Some r => Some (PBool true, r) | None => None end
          else if Ascii.eqb a "f" then
            match expect (list_ascii_of_string "alse") s' with
            | Some r => Some (PBool false, r) | None => None end
          else if Ascii.eqb a dquote_char then
            match string_body s' with
            | Some (t, r) => Some (PStr t, r) | None => None end
          else if Ascii.eqb a "[" then
            match skip_ws s' with
            | b :: r => if Ascii.eqb b "]" then Some (PList [], r)
                        else match elements fuel' s' with
                             | Some (l, r') => Some (PList l, r') | None => None end
            | [] => None
            end
          else if Ascii.eqb a "{" then
            match skip_ws s' with
            | b :: r => if Ascii.eqb b "}" then Some (PDict [], r)
                        else match members fuel' s' with
                             | Some (d, r') => Some (PDict d, r') | None => None end
            | [] => None
            end
          else
            match number (a :: s') with
            | Some (n, r) => Some (PInt n, r) | None => None end
      end
  end
with elements (fuel : nat) (s : list ascii) : option (list pyval * list ascii) :=
  match fuel with
  | O => None
  | S fuel' =>
      match value fuel' s with
      | Some (v, r) =>
          match skip_ws r with
          | c :: r' =>
              if Ascii.eqb c "," then
                match elements fuel' r' with
                | Some (l, r'') => Some (v :: l, r'') | None => None end
              else if Ascii.eqb c "]" then Some ([v], r')
              else None
          | [] => None
          end
      | None => None
      end
  end
with members (fuel : nat) (s : list ascii) : option (dict * list ascii) :=
  match fuel with
  | O => None
  | S fuel' =>
      match skip_ws s with
      | q :: s1 =>
          if Ascii.eqb q dquote_char then
            match string_body s1 with
            | Some (k, s2) =>
                match skip_ws s2 with
                | c :: s3 =>
                    if Ascii.eqb c ":" then
                      match value fuel' s3 with
                      | Some (v, r) =>
                          match skip_ws r with
                          | e :: r' =>
                              if Ascii.eqb e "," then
                                match members fuel' r' with
                                | Some (d, r'') => Some ((k, v) :: d, r'') | None => None end
                              else if Ascii.eqb e "}" then Some ([(k, v)], r')
                              else None
                          | [] => None
                          end
                      | None => None
                      end
                    else None
                | [] => None
                end
            | None => None
            end
          else None
      | [] => None
      end
  end.

(** A key written twice keeps its first place and its last value. *)
Definition dedup (d : dict) : dict :=
  fold_left (fun acc kv => dict_set acc (fst kv) (snd kv)) d [].

Fixpoint normalize (v : pyval) : pyval :=
  match v with
  | PList l => PList (map normalize l)
  | PDict d => PDict (dedup (map (fun kv => (fst kv, normalize (snd kv))) d))
  | _ => v
  end.

Definition loads (v : pyval) : result pyval :=
  match v with
  | PStr s =>
      let text := list_ascii_of_string s in
      match value (2 * List.length text + 2) text with
      | Some (x, r) =>
          match skip_ws r with
          | [] => Ok (normalize x)
          | _ => Raise JSONDecodeError
          end
      | None => Raise JSONDecodeError
      end
  | _ => Raise TypeError
  end.

End Json.

(** ** Concrete collaborators, providers and worlds for the examples *)

Module Demo.

Definition store_rows : list AlertEnrichment :=
  [ mkAlertEnrichment "f1" [("note", PStr "seen")] ].

(** A store that answers [get_enrichments] with its rows for the asked
    fingerprints, and accepts every write. *)
Definition collaborators : Collaborators := {|
  enrich_alert := fun _ _ _ => Ok tt;
  get_enrichments := fun _ fingerprints =>
    Ok (map Some (List.filter (fun row => existsb (py_eq (PStr (alert_fingerprint row))) fingerprints)
                         store_rows));
  parse_and_enrich_deleted_and_assignees := fun a _ => a;
  json_loads := Json.loads;
  uuid4 := fun n => "00000000-0000-4000-8000-00000000000" +:+ string_of_Z (Z.of_nat n);
  now := PStr "2024-01-01T00:00:00";
  KEEP_API_URL := Some "http://localhost:8080";
  requests_post := fun _ _ _ => Ok 200%Z
|}.

Definition alert (name fingerprint lastReceived : string) : AlertDto :=
  mkAlertDto [ ("name", PStr name);
               ("fingerprint", PStr fingerprint);
               ("lastReceived", PStr lastReceived) ].

Definition heap_of (objects : list AlertDto) : ref -> AlertDto :=
  fun r => nth r objects (mkAlertDto []).

Definition world_of (objects : list AlertDto) : world :=
  mkWorld (heap_of objects) [] 0.

Definition context (foreach : option foreach_value) (event : event_context_value)
    : ContextManager :=
  mkContextManager "tenant" "api-key" foreach event.

(** A provider whose [_get_alerts] returns the alerts at the given
    addresses. *)
Definition provider (ctx : ContextManager) (fetched : list ref) : Provider := {|
  provider_id := "demo-1";
  provider_type := "demo";
  context_manager := ctx;
  _get_alerts := ret fetched
|}.

Definition t1 : string := "2024-01-01T00:00:01".
Definition t2 : string := "2024-01-01T00:00:02".
Definition t3 : string := "2024-01-01T00:00:03".

(** Fingerprints f1, f2, f1 received at t1, t3, t2. *)
Definition three_alerts : list AlertDto :=
  [ alert "a" "f1" t1; alert "b" "f2" t3; alert "c" "f1" t2 ].

(** Two alerts of one fingerprint, the later one fetched first. *)
Definition two_alerts : list AlertDto :=
  [ alert "late" "f1" t2; alert "early" "f1" t1 ].

Definition no_context : ContextManager := context None EventNone.

End Demo.

(** ** Notions the properties are stated with *)

(** The calls to the enrichment store in a trace. *)
Definition store_calls (t : list event) : list event := List.filter is_store_call t.

(** [lastReceived] of the alerts of a group, in the order of the group. *)
Definition last_received (h : ref -> AlertDto) (group : list ref) : list (result pyval) :=
  map (fun r => getattr (h r) "lastReceived") group.

(** The text after the prefix [results.], cut into its dot-separated
    parts: the path the enrichment instruction names. *)
Definition path_after_prefix (value : string) : list string :=
  split_on "." (String.substring 8 (String.length value - 8) value).

(** The loop item the fingerprint is read from: the item itself, or the
    first element when the loop is zipped; none without a loop or when the
    value under ["value"] is falsy. *)
Definition loop_item (f : option foreach_value) : option pyval :=
  match f with
  | Some (ForeachItem v) => if truthy v then Some v else None
  | Some (ForeachZipped (first :: _)) => Some first
  | _ => None
  end.

(** The bytes one field adds to the hash: the JSON text of a list or dict,
    the text of any other truthy value, nothing for a falsy one. *)
Definition field_bytes (v : pyval) : list Z :=
  if isinstance_list_or_dict v then encode (json_dumps v)
  else if truthy v then encode (py_str v)
  else [].

(** The value [event_dict.get(field, None)] of a field of an alert. *)
Definition field_value (a : AlertDto) (field : string) : pyval :=
  dict_get_default (alert_dict a) field PNone.

(** A fingerprint key that is a [str], and the alert or the group under
    it. *)
Definition str_keyed (p : string * ref) : pyval * ref := (PStr (fst p), snd p).

Definition str_group (p : string * list ref) : pyval * list ref := (PStr (fst p), snd p).

(** The order of [str] keys: [a] is not above [b]. *)
Definition str_le (a b : string) : Prop := String.ltb b a = false.

(** An alert of the heap carries a fingerprint: the attribute is a [str]. *)
Definition carries_fingerprint (h : ref -> AlertDto) (r : ref) : Prop :=
  exists s, getattr (h r) "fingerprint" = Ok (PStr s).

Definition fingerprint_text (h : ref -> AlertDto) (r : ref) : string :=
  match getattr (h r) "fingerprint" with
  | Ok (PStr s) => s
  | _ => EmptyString
  end.

Definition with_text (h : ref -> AlertDto) (r : ref) : string * ref :=
  (fingerprint_text h r, r).

Definition key_is (a : string) (p : string * ref) : bool := String.eqb (fst p) a.

(** ** BaseProvider._extract_type *)

Definition is_upper_ascii (a : ascii) : bool :=
  let c := char_code a in ((65 <=? c) && (c <=? 90))%Z.

(** [re.sub("([A-Z])", r" \1", s)]: a space before every capital. *)
Fixpoint space_before_capitals (s : string) : string :=
  match s with
  | EmptyString => EmptyString
  | String a s' =>
      if is_upper_ascii a then String " " (String a (space_before_capitals s'))
      else String a (space_before_capitals s')
  end.

(** [s.lower()] on the code points below 256: the capitals of ASCII, and
    those of the upper half but the multiplication sign. *)
Definition lower_char (a : ascii) : ascii :=
  let c := char_code a in
  if ((65 <=? c) && (c <=? 90))%Z then ascii_of_N (Z.to_N (c + 32))
  else if ((192 <=? c) && (c <=? 222) && negb (c =? 215))%Z then ascii_of_N (Z.to_N (c + 32))
  else a.

Fixpoint lower (s : string) : string :=
  match s with
  | EmptyString => EmptyString
  | String a s' => String (lower_char a) (lower s')
  end.

(** The characters [str.strip()] removes. *)
Definition is_space (a : ascii) : bool :=
  let c := char_code a in
  (((9 <=? c) && (c <=? 13)) || ((28 <=? c) && (c <=? 32)) || (c =? 133) || (c =? 160))%Z.

Fixpoint lstrip (s : string) : string :=
  match s with
  | EmptyString => EmptyString
  | String a s' => if is_space a then lstrip s' else s
  end.

Fixpoint rstrip (s : string) : string :=
  match s with
  | EmptyString => EmptyString
  | String a s' =>
      match rstrip s' with
      | EmptyString => if is_space a then EmptyString else String a EmptyString
      | t => String a t
      end
  end.

Definition strip (s : string) : string := rstrip (lstrip s).

(** [s.replace(old, new)] for [old] of one character *)
Fixpoint replace_char (old : ascii) (new : ascii) (s : string) : string :=
  match s with
  | EmptyString => EmptyString
  | String a s' =>
      String (if Ascii.eqb a old then new else a) (replace_char old new s')
  end.

(** [name] is [self.__class__.__name__]. *)
Definition _extract_type (name : string) : string :=
  let name_without_provider := str_remove "Provider" name in
  let name_with_spaces := strip (lower (space_before_capitals name_without_provider)) in
  replace_char " " "." name_with_spaces.

(** ** BaseProvider.notify and BaseProvider.query *)

(** [**kwargs]: the instructions under ["enrich_alert"], if the key is
    there, and the arguments of the provider. *)
Record call_kwargs : Type := mkKwargs {
  enrich_alert_kw : option (list pyval);
  provider_kw : dict
}.

(** The abstract [_notify] and [_query] of a concrete provider. *)
Class ProviderActions : Type := {
  _notify : call_kwargs -> M pyval;
  _query : call_kwargs -> M pyval
}.

(** What the two methods keep on the instance and on the context manager:
    [self.results] and [context_manager.dependencies], a set of classes. *)
Record provider_state : Type := mkProviderState {
  results_list : list pyval;
  dependencies : list string
}.

(** [v.__class__] *)
Definition py_class (v : pyval) : string :=
  match v with
  | PNone => "NoneType"
  | PBool _ => "bool"
  | PInt _ => "int"
  | PStr _ => "str"
  | PList _ => "list"
  | PDict _ => "dict"
  end.

(** [s.add(x)] on a set held as a list without repetition *)
Definition set_add (x : string) (s : list string) : list string :=
  if existsb (String.eqb x) s then s else s ++ [x].

Definition is_none (v : pyval) : bool :=
  match v with PNone => true | _ => false end.

Definition kwargs_enrich_alert (kwargs : call_kwargs) : list pyval :=
  match enrich_alert_kw kwargs with
  | Some l => l
  | None => []
  end.

Section Calls.

Context {C : Collaborators} {P : Provider} {A : ProviderActions}.

Definition notify (kwargs : call_kwargs) (st : provider_state) (w : world)
    : result pyval * provider_state * world :=
  match _notify kwargs w with
  | (Raise e, w1) => (Raise e, st, w1)
  | (Ok results, w1) =>
      let st1 := mkProviderState (results_list st ++ [results]) (dependencies st) in
      let enrich_alert := kwargs_enrich_alert kwargs in
      if negb (truthy (PList enrich_alert)) || is_none results then
        (Ok (if truthy results then results else PNone), st1, w1)
      else
        match _enrich_alert enrich_alert results w1 with
        | (Ok _, w2) => (Ok results, st1, w2)
        | (Raise e, w2) => (Raise e, st1, w2)
        end
  end.

Definition query (kwargs : call_kwargs) (st : provider_state) (w : world)
    : result pyval * provider_state * world :=
  match _query kwargs w with
  | (Raise e, w1) => (Raise e, st, w1)
  | (Ok results, w1) =>
      let deps :=
        match results with
        | PList (first :: _) => set_add (py_class first) (dependencies st)
        | _ => if truthy results then set_add (py_class results) (dependencies st)
               else dependencies st
        end in
      let st1 := mkProviderState (results_list st ++ [results]) deps in
      let enrich_alert := kwargs_enrich_alert kwargs in
      if truthy (PList enrich_alert) then
        match _enrich_alert enrich_alert results w1 with
        | (Ok _, w2) => (Ok results, st1, w2)
        | (Raise e, w2) => (Raise e, st1, w2)
        end
      else (Ok results, st1, w1)
  end.

End Calls.

Module DemoCalls.

(** A provider whose [_notify] and [_query] return the value under
    ["answer"] of their arguments, [None] without it. *)
Definition actions : ProviderActions := {|
  _notify := fun kwargs => ret (dict_get_default (provider_kw kwargs) "answer" PNone);
  _query := fun kwargs => ret (dict_get_default (provider_kw kwargs) "answer" PNone)
|}.

Definition fresh : provider_state := mkProviderState [] [].

End DemoCalls.

(** The event is a call of the outbound endpoint. *)
Definition is_post_call (e : event) : bool :=
  match e with
  | CallPost _ _ _ => true
  | _ => false
  end.


(** A word of a class name: a capital, then small letters. *)
Definition is_lower_ascii (a : ascii) : bool :=
  let c := char_code a in ((97 <=? c) && (c <=? 122))%Z.

Fixpoint all_lower (s : string) : bool :=
  match s with
  | EmptyString => true
  | String a s' => is_lower_ascii a && all_lower s'
  end.

Definition is_word (w : string) : bool :=
  match w with
  | EmptyString => false
  | String a t => is_upper_ascii a && all_lower t
  end.

Fixpoint has_space (s : string) : bool :=
  match s with
  | EmptyString => false
  | String a s' => Ascii.eqb a " " || has_space s'
  end.

Fixpoint has_upper_ascii (s : string) : bool :=
  match s with
  | EmptyString => false
  | String a s' => is_upper_ascii a || has_upper_ascii s'
  end.



(** The store of the examples, but every write fails. *)
Definition failing_store : Collaborators := {|
  enrich_alert := fun _ _ _ => Raise StorageError;
  get_enrichments := @get_enrichments Demo.collaborators;
  parse_and_enrich_deleted_and_assignees := fun a _ => a;
  json_loads := Json.loads;
  uuid4 := @uuid4 Demo.collaborators;
  now := @now Demo.collaborators;
  KEEP_API_URL := Some "http://localhost:8080";
  requests_post := fun _ _ _ => Ok 200%Z
|}.

(** The event is the log of an instruction that was skipped. *)
Definition is_skip_log (e : event) : bool :=
  match e with
  | Log level msg => String.eqb level "error" && String.eqb msg "Failed to enrich alert"
  | _ => false
  end.

(** One [str] key is below another. *)
Definition str_lt (a b : string) : Prop := String.ltb a b = true.

(** A store that answers every read with one row, of a fingerprint no
    alert has any more. *)
Definition stale_store : Collaborators := {|
  enrich_alert := fun _ _ _ => Ok tt;
  get_enrichments := fun _ _ => Ok [Some (mkAlertEnrichment "gone" [("note", PStr "old")])];
  parse_and_enrich_deleted_and_assignees := fun a _ => a;
  json_loads := Json.loads;
  uuid4 := @uuid4 Demo.collaborators;
  now := @now Demo.collaborators;
  KEEP_API_URL := Some "http://localhost:8080";
  requests_post := fun _ _ _ => Ok 200%Z
|}.

(** The value of an attribute, [None] when the alert lacks it. *)
Definition attr_or_none (h : ref -> AlertDto) (name : string) (r : ref) : pyval :=
  match getattr (h r) name with
  | Ok v => v
  | Raise _ => PNone
  end.

(** The collaborators of the examples, with the endpoint unreachable. *)
Definition offline : Collaborators := {|
  enrich_alert := fun _ _ _ => Ok tt;
  get_enrichments := @get_enrichments Demo.collaborators;
  parse_and_enrich_deleted_and_assignees := fun a _ => a;
  json_loads := Json.loads;
  uuid4 := @uuid4 Demo.collaborators;
  now := @now Demo.collaborators;
  KEEP_API_URL := Some "http://localhost:8080";
  requests_post := fun _ _ _ => Raise (Exception "ConnectionError")
|}.

(** The collaborators of the examples, without [KEEP_API_URL] in the
    environment. *)
Definition no_url : Collaborators := {|
  enrich_alert := fun _ _ _ => Ok tt;
  get_enrichments := @get_enrichments Demo.collaborators;
  parse_and_enrich_deleted_and_assignees := fun a _ => a;
  json_loads := Json.loads;
  uuid4 := @uuid4 Demo.collaborators;
  now := @now Demo.collaborators;
  KEEP_API_URL := None;
  requests_post := fun _ _ _ => Ok 200%Z
|}.

(** The JSON text of an object with the one member name, cpu high. *)
Definition cpu_high_text : string :=
  "{" +:+ dquote +:+ "name" +:+ dquote +:+ ": " +:+ dquote +:+ "cpu high" +:+ dquote +:+ "}".

(** The words of a class name written one after the other. *)
Fixpoint glue (ws : list string) : string :=
  match ws with
  | [] => EmptyString
  | w :: ws' => w +:+ glue ws'
  end.

Definition head_upper (s : string) : bool :=
  match s with
  | EmptyString => false
  | String a _ => is_upper_ascii a
  end.

(** The text is not empty and its last character is not a space. *)
Fixpoint ends_well (s : string) : bool :=
  match s with
  | EmptyString => false
  | String a EmptyString => negb (is_space a)
  | String _ s' => ends_well s'
  end.

(** The path [parts] leads from [r] to [v]: each of its steps is a key of
    the dict reached so far, and [v] is what the last step holds. *)
Inductive leads_to : pyval -> list string -> pyval -> Prop :=
| leads_here (r : pyval) : leads_to r [] r
| leads_step (d : dict) (part : string) (parts : list string) (r v : pyval) :
    dict_get d part = Some r -> leads_to r parts v ->
    leads_to (PDict d) (part :: parts) v.

(** The text holds no dot. *)
Fixpoint dot_free (s : string) : bool :=
  match s with
  | EmptyString => true
  | String a s' => negb (Ascii.eqb a ".") && dot_free s'
  end.

(** * Properties *)

(** ** The fingerprint engine *)

Lemma sha256_of_nothing :
  sha256_hexdigest sha256_new
  = "e3b0c44298fc1c149afbf4c8996fb92427ae41e4649b934ca495991b7852b855".
Proof. vm_compute. reflexivity. Qed.

Lemma sha256_of_abc :
  sha256_hexdigest (encode "abc")
  = "ba7816bf8f01cfea414140de5dae2223b00361a396177a9cb410ff61f20015ad".
Proof. vm_compute. reflexivity. Qed.

Lemma json_dumps_composite_nonempty v :
  isinstance_list_or_dict v = true -> truthy (PStr (json_dumps v)) = true.
Proof. destruct v; simpl; intros Hc; try discriminate; reflexivity. Qed.

Lemma fingerprint_step_bytes event_dict h field :
  fingerprint_step event_dict h field
  = h ++ field_bytes (dict_get_default event_dict field PNone).
Proof.
  unfold fingerprint_step, field_bytes, sha256_update.
  destruct (isinstance_list_or_dict _) eqn:Hc.
  - rewrite (json_dumps_composite_nonempty _ Hc). reflexivity.
  - destruct (truthy _); [reflexivity | symmetry; apply app_nil_r].
Qed.

Lemma fold_fingerprint_bytes event_dict fields h :
  fold_left (fingerprint_step event_dict) fields h
  = h ++ flat_map (fun f => field_bytes (dict_get_default event_dict f PNone)) fields.
Proof.
  revert h. induction fields as [|f fields IH]; intros h; simpl.
  - symmetry. apply app_nil_r.
  - rewrite IH, fingerprint_step_bytes, <- app_assoc. reflexivity.
Qed.

(** With fields configured, the fingerprint is the digest of the bytes of
    the fields, in the order of the list. *)
Lemma get_alert_fingerprint_digest alert fields :
  fields <> [] ->
  get_alert_fingerprint alert fields
  = Ok (PStr (sha256_hexdigest (flat_map (fun f => field_bytes (field_value alert f)) fields))).
Proof.
  intros Hne. unfold get_alert_fingerprint.
  destruct fields as [|f fields]; [congruence|].
  rewrite fold_fingerprint_bytes. reflexivity.
Qed.

Lemma flat_map_ext_in {A B} (f g : A -> list B) (l : list A) :
  (forall x, In x l -> f x = g x) -> flat_map f l = flat_map g l.
Proof.
  induction l as [|x l IH]; intros H; simpl; [reflexivity|].
  rewrite (H x (or_introl eq_refl)), IH; [reflexivity|].
  intros y Hy. apply H. right. exact Hy.
Qed.

(** C8: with an empty list of fingerprint fields, [get_alert_fingerprint]
    returns [alert.name] as it is; nothing is hashed. *)
Theorem get_alert_fingerprint_no_fields (alert : AlertDto) :
  get_alert_fingerprint alert [] = getattr alert "name".
Proof. reflexivity. Qed.

(** C9: for a non-empty list of fields, two alerts whose values agree on
    every field of the list have the same fingerprint, whatever their other
    fields hold. *)
Theorem get_alert_fingerprint_projection (A B : AlertDto) (F : list string) :
  F <> [] ->
  (forall f, In f F -> field_value A f = field_value B f) ->
  get_alert_fingerprint A F = get_alert_fingerprint B F.
Proof.
  intros Hne Hagree.
  rewrite !get_alert_fingerprint_digest by assumption.
  do 3 f_equal. apply flat_map_ext_in.
  intros f Hf. rewrite (Hagree f Hf). reflexivity.
Qed.

Lemma get_alert_fingerprint_projection_witness :
  get_alert_fingerprint
    (mkAlertDto [("name", PStr "a"); ("service", PStr "db"); ("message", PStr "one")])
    ["service"; "env"]
  = get_alert_fingerprint
      (mkAlertDto [("message", PStr "two"); ("name", PStr "b"); ("service", PStr "db")])
      ["service"; "env"].
Proof.
  apply get_alert_fingerprint_projection.
  - discriminate.
  - intros f [<- | [<- | []]]; reflexivity.
Defined.

(** C10, as stated, fails: an empty list is falsy, yet [json.dumps] turns
    it into the text of two brackets before the truth test, and that text
    is hashed. *)
Lemma falsy_composite_field_counterexample :
  let A := mkAlertDto [("name", PStr "n"); ("source", PList [])] in
  let F := ["source"] in
  F <> [] /\
  (forall f, In f F -> truthy (field_value A f) = false) /\
  get_alert_fingerprint A F
  = Ok (PStr "4f53cda18c2baa0c0354bb5f9a3ecbe5ed12ab4d8e11ba873c2f11161202b945") /\
  get_alert_fingerprint A F <> Ok (PStr (sha256_hexdigest sha256_new)).
Proof.
  cbv zeta. split; [discriminate|]. split.
  - intros f [<- | []]. reflexivity.
  - split; [vm_compute; reflexivity|].
    vm_compute. discriminate.
Qed.

(** C10, amended: for a non-empty list of fields whose values on the alert
    are all absent or falsy and neither a list nor a dict, the fingerprint
    is the SHA-256 digest of no input, one constant whatever the name of
    the alert. *)
Theorem get_alert_fingerprint_all_skipped (A : AlertDto) (F : list string) :
  F <> [] ->
  (forall f, In f F ->
     truthy (field_value A f) = false /\ isinstance_list_or_dict (field_value A f) = false) ->
  get_alert_fingerprint A F
  = Ok (PStr "e3b0c44298fc1c149afbf4c8996fb92427ae41e4649b934ca495991b7852b855").
Proof.
  intros Hne Hskip.
  rewrite get_alert_fingerprint_digest by assumption.
  rewrite (flat_map_ext_in _ (fun _ => [])).
  - replace (flat_map (fun _ : string => @nil Z) F) with (@nil Z).
    + rewrite <- sha256_of_nothing. reflexivity.
    + clear. induction F; simpl; auto.
  - intros f Hf. destruct (Hskip f Hf) as [Ht Hc].
    unfold field_bytes. rewrite Hc, Ht. reflexivity.
Qed.

Lemma get_alert_fingerprint_all_skipped_witness :
  get_alert_fingerprint
    (mkAlertDto [("name", PStr "n"); ("service", PStr ""); ("url", PNone); ("count", PInt 0)])
    ["service"; "url"; "count"; "missing"]
  = Ok (PStr "e3b0c44298fc1c149afbf4c8996fb92427ae41e4649b934ca495991b7852b855").
Proof.
  apply get_alert_fingerprint_all_skipped.
  - discriminate.
  - intros f [<- | [<- | [<- | [<- | []]]]]; split; reflexivity.
Defined.

(** C5, as stated, fails: [json.dumps] writes the keys of a dict in the
    order they were inserted, so two values equal as mappings give two
    texts and two fingerprints. *)
Lemma key_order_counterexample :
  let A := mkAlertDto [("name", PStr "n"); ("labels", PDict [("a", PInt 1); ("b", PInt 2)])] in
  let B := mkAlertDto [("name", PStr "n"); ("labels", PDict [("b", PInt 2); ("a", PInt 1)])] in
  let F := ["labels"] in
  (forall f, In f F -> py_eq (field_value A f) (field_value B f) = true) /\
  get_alert_fingerprint A F
  = Ok (PStr "d8497d9d82770a70729261095aa98f7ef5154d7af499f8037b6ca250296785a6") /\
  get_alert_fingerprint B F
  = Ok (PStr "d5b8aed265256c893850d31609a884cd910a452df090e34ce4d318c9ef5bd771") /\
  get_alert_fingerprint A F <> get_alert_fingerprint B F.
Proof.
  cbv zeta. split.
  - intros f [<- | []]. reflexivity.
  - split; [vm_compute; reflexivity|].
    split; [vm_compute; reflexivity|].
    vm_compute. discriminate.
Qed.

(** C5, amended: a field whose value is a list or a dict is fed to the
    digest as its [json.dumps] text, which keeps the insertion order of the
    keys; two alerts whose values for every field of the list are
    composites with the same text (same keys, same order, same values)
    receive the same fingerprint. *)
Theorem get_alert_fingerprint_composite_text (A B : AlertDto) (F : list string) :
  F <> [] ->
  (forall f, In f F ->
     isinstance_list_or_dict (field_value A f) = true /\
     isinstance_list_or_dict (field_value B f) = true /\
     json_dumps (field_value A f) = json_dumps (field_value B f)) ->
  get_alert_fingerprint A F
  = Ok (PStr (sha256_hexdigest (flat_map (fun f => encode (json_dumps (field_value A f))) F)))
  /\ get_alert_fingerprint A F = get_alert_fingerprint B F.
Proof.
  intros Hne Hsame.
  rewrite !get_alert_fingerprint_digest by assumption.
  split; do 3 f_equal; apply flat_map_ext_in; intros f Hf;
    destruct (Hsame f Hf) as (Ha & Hb & Htext); unfold field_bytes;
    rewrite Ha; try rewrite Hb; try rewrite Htext; reflexivity.
Qed.

Lemma get_alert_fingerprint_composite_text_witness :
  let A := mkAlertDto [("name", PStr "n"); ("labels", PDict [("a", PInt 1); ("b", PInt 2)])] in
  let B := mkAlertDto [("labels", PDict [("a", PInt 1); ("b", PInt 2)]); ("name", PStr "m")] in
  get_alert_fingerprint A ["labels"]
  = Ok (PStr (sha256_hexdigest
               (flat_map (fun f => encode (json_dumps (field_value A f))) ["labels"])))
  /\ get_alert_fingerprint A ["labels"] = get_alert_fingerprint B ["labels"].
Proof.
  cbv zeta. apply get_alert_fingerprint_composite_text.
  - discriminate.
  - intros f [<- | []]. repeat split; reflexivity.
Defined.

(** ** The normalizer *)

(** C1: the code does not drop an input that is no dict and that
    [json.loads] rejects.  The handler of the parse error evaluates
    [alert_data = alert_data] while [alert_data] is unbound, so
    [_push_alert] raises [UnboundLocalError]: no warning is logged and
    nothing is posted, but an exception leaves the method. *)
Theorem push_alert_unparseable_raises `{Collaborators} `{Provider}
    (alert : pyval) (e : exn) (w : world) :
  isinstance_dict alert = false ->
  json_loads alert = Raise e ->
  _push_alert alert w = (Raise UnboundLocalError, w).
Proof.
  intros Hnd Hparse. unfold _push_alert, bind, try_except, lift, read_local, raise.
  rewrite Hnd. simpl. rewrite Hparse. reflexivity.
Qed.

Lemma push_alert_unparseable_raises_witness :
  @_push_alert Demo.collaborators (Demo.provider Demo.no_context [])
     (PStr "not json") (Demo.world_of [])
  = (Raise UnboundLocalError, Demo.world_of []).
Proof.
  apply (@push_alert_unparseable_raises Demo.collaborators
           (Demo.provider Demo.no_context []) (PStr "not json") JSONDecodeError).
  - reflexivity.
  - vm_compute. reflexivity.
Defined.

(** An input that parses, but not to a dict, is dropped with a warning. *)
Lemma push_alert_not_a_dict `{Collaborators} `{Provider} (alert v : pyval) (w : world) :
  isinstance_dict alert = false ->
  json_loads alert = Ok v ->
  isinstance_dict v = false ->
  _push_alert alert w
  = (Ok tt, mkWorld (heap w)
              (trace w ++ [Log "warning"
                 "We currently support only alert represented as a dict, dismissing alert"])
              (drawn w)).
Proof.
  intros Hnd Hparse Hv. unfold _push_alert, bind, try_except, lift.
  rewrite Hnd. simpl. rewrite Hparse.
  destruct v; try discriminate; reflexivity.
Qed.

(** ** Grouping *)

(** C7: when [get_alerts()] returns no alert, [get_alerts_by_fingerprint]
    returns the empty mapping and leaves the world as [get_alerts] left it:
    [get_enrichments] is not called. *)
Theorem get_alerts_by_fingerprint_empty `{Collaborators} `{Provider}
    (tenant : string) (w w1 : world) :
  get_alerts w = (Ok [], w1) ->
  get_alerts_by_fingerprint tenant w = (Ok [], w1)
  /\ store_calls (trace (snd (get_alerts_by_fingerprint tenant w))) = store_calls (trace w1).
Proof.
  intros Hget.
  assert (Hrun : get_alerts_by_fingerprint tenant w = (Ok [], w1)).
  { unfold get_alerts_by_fingerprint, bind. rewrite Hget. reflexivity. }
  split; [exact Hrun | rewrite Hrun; reflexivity].
Qed.

Lemma get_alerts_by_fingerprint_empty_witness :
  @get_alerts_by_fingerprint Demo.collaborators (Demo.provider Demo.no_context [])
     "tenant" (Demo.world_of [])
  = (Ok [], Demo.world_of []).
Proof.
  apply (@get_alerts_by_fingerprint_empty Demo.collaborators
           (Demo.provider Demo.no_context []) "tenant" (Demo.world_of []) (Demo.world_of [])).
  reflexivity.
Defined.

(** C2: the groups are not sorted by [lastReceived].  The code sorts by
    fingerprint only, and the sort is stable, so a group keeps the order in
    which the provider returned its alerts: two alerts of fingerprint f1
    fetched as (t2, t1) come back as (t2, t1). *)
Theorem group_keeps_fetch_order :
  let run := @get_alerts_by_fingerprint Demo.collaborators
               (Demo.provider Demo.no_context [0; 1]) "tenant"
               (Demo.world_of Demo.two_alerts) in
  fst run = Ok [(PStr "f1", [0; 1])] /\
  last_received (heap (snd run)) [0; 1] = [Ok (PStr Demo.t2); Ok (PStr Demo.t1)] /\
  String.ltb Demo.t1 Demo.t2 = true.
Proof. cbv zeta. repeat split; vm_compute; reflexivity. Qed.

(** ** Enrichment *)

(** C4: [value.replace("results.", "")] removes every occurrence of the
    prefix, not the leading one only.  For the value [results.results.a]
    the path of the instruction is (results, a), which leads to 1 here; the
    code walks (a) and binds 2. *)
Theorem enrichment_path_loses_inner_results :
  let results := PDict [ ("fingerprint", PStr "fp");
                         ("results", PDict [("a", PInt 1)]);
                         ("a", PInt 2) ] in
  let instruction := PDict [("key", PStr "x"); ("value", PStr "results.results.a")] in
  let run := @_enrich_alert Demo.collaborators (Demo.provider Demo.no_context [])
               [instruction] results (Demo.world_of []) in
  walk results (path_after_prefix "results.results.a") = Ok (PInt 1) /\
  enrich_one results [] instruction = Ok [(PStr "x", PInt 2)] /\
  fst run = Ok tt /\
  store_calls (trace (snd run)) = [CallEnrichAlert "tenant" (PStr "fp") [(PStr "x", PInt 2)]].
Proof. cbv zeta. repeat split; vm_compute; reflexivity. Qed.

Lemma store_calls_app t u : store_calls (t ++ u) = store_calls t ++ store_calls u.
Proof. unfold store_calls. apply List.filter_app. Qed.

Lemma store_calls_log t level msg : store_calls (t ++ [Log level msg]) = store_calls t.
Proof. rewrite store_calls_app. simpl. apply app_nil_r. Qed.

(** The loop over the instructions never raises and never reaches the
    store: it only logs. *)
Lemma compute_enrichments_total results enrichments :
  forall acc w, exists fields w',
    compute_enrichments results enrichments acc w = (Ok fields, w') /\
    heap w' = heap w /\
    store_calls (trace w') = store_calls (trace w).
Proof.
  induction enrichments as [|enrichment rest IH]; intros acc w; simpl.
  - exists acc, w. repeat split.
  - destruct (enrich_one results acc enrichment) as [acc'|e].
    + apply IH.
    + unfold bind, logger, emit.
      destruct (IH acc (mkWorld (heap w) (trace w ++ [Log "error" "Failed to enrich alert"]) (drawn w)))
        as (fields & w' & Hrun & Hheap & Hcalls).
      exists fields, w'. rewrite Hrun. repeat split; [exact Hheap|].
      rewrite Hcalls. simpl. apply store_calls_log.
Qed.

(** Without a truthy fingerprint [_enrich_alert] raises before the store is
    reached. *)
Lemma enrich_alert_hard_stop `{Collaborators} `{Provider}
    (enrichments : list pyval) (results : pyval) (w : world) :
  (forall fp, extract_fingerprint results = Ok fp -> truthy fp = false) ->
  exists e w', _enrich_alert enrichments results w = (Raise e, w') /\
               store_calls (trace w') = store_calls (trace w).
Proof.
  intros Hnone. unfold _enrich_alert, bind, logger, emit, lift, raise. simpl.
  destruct (extract_fingerprint results) as [fp|e] eqn:Hfp.
  - rewrite (Hnone fp eq_refl). simpl. eexists _, _. split; [reflexivity|].
    simpl. rewrite !store_calls_log. reflexivity.
  - eexists _, _. split; [reflexivity|]. simpl. apply store_calls_log.
Qed.

(** With a truthy fingerprint the store is called once, with it. *)
Lemma enrich_alert_reaches_store `{Collaborators} `{Provider}
    (enrichments : list pyval) (results : pyval) (w : world) (fp : pyval) :
  extract_fingerprint results = Ok fp ->
  truthy fp = true ->
  exists r w' fields,
    _enrich_alert enrichments results w = (r, w') /\
    store_calls (trace w')
    = store_calls (trace w) ++ [CallEnrichAlert (tenant_id context_manager) fp fields].
Proof.
  intros Hfp Htrue. unfold _enrich_alert, bind, lift. simpl.
  rewrite Hfp, Htrue. simpl.
  set (w1 := mkWorld _ _ _).
  destruct (compute_enrichments_total results enrichments [] w1)
    as (fields & w2 & Hrun & _ & Hcalls).
  rewrite Hrun. unfold try_except, bind, logger, emit, lift, raise. simpl.
  assert (Hw1 : store_calls (trace w1) = store_calls (trace w)).
  { subst w1. simpl. rewrite !store_calls_log. reflexivity. }
  destruct (enrich_alert (tenant_id context_manager) fp fields) as [[]|e];
    eexists _, _, fields; (split; [reflexivity|]); simpl;
    rewrite ?store_calls_log, store_calls_app, store_calls_log, Hcalls, Hw1; reflexivity.
Qed.

(** C6: [_enrich_alert] raises, and the enrichment store is not called,
    whenever the fallback yields no fingerprint or a null or empty one.  The
    fallback reads, in this order: the ["fingerprint"] entry of the results;
    else [.get("fingerprint")] of the loop item (the first element of a
    zipped one), which is the entry or [None] on a dict and an
    [AttributeError] on anything else; else the fingerprint of the ambient
    event, the entry or [None] of a dict and the attribute of an [AlertDto];
    else [None].  A truthy fingerprint so derived is the one the store is
    called with. *)
Theorem enrich_alert_fingerprint_tiers `{Collaborators} `{Provider}
    (enrichments : list pyval) (results : pyval) (w : world) :
  ((forall fp, extract_fingerprint results = Ok fp -> truthy fp = false) ->
   exists e w', _enrich_alert enrichments results w = (Raise e, w') /\
                store_calls (trace w') = store_calls (trace w))
  /\
  (forall d fp, results = PDict d -> dict_get d "fingerprint" = Some fp ->
     extract_fingerprint results = Ok fp)
  /\
  (forall d item_d, results = PDict d -> dict_get d "fingerprint" = None ->
     loop_item (foreach_context context_manager) = Some (PDict item_d) ->
     extract_fingerprint results
     = Ok (match dict_get item_d "fingerprint" with Some fp => fp | None => PNone end))
  /\
  (forall d item, results = PDict d -> dict_get d "fingerprint" = None ->
     loop_item (foreach_context context_manager) = Some item ->
     isinstance_dict item = false ->
     extract_fingerprint results = Raise AttributeError)
  /\
  (forall d, results = PDict d -> dict_get d "fingerprint" = None ->
     loop_item (foreach_context context_manager) = None ->
     extract_fingerprint results
     = match event_context context_manager with
       | EventNone => Ok PNone
       | EventDict event_d =>
           Ok (match dict_get event_d "fingerprint" with Some fp => fp | None => PNone end)
       | EventDto alert =>
           match dict_get (attributes alert) "fingerprint" with
           | Some fp => Ok fp
           | None => Raise AttributeError
           end
       end)
  /\
  (forall fp, extract_fingerprint results = Ok fp -> truthy fp = true ->
     exists r w' fields,
       _enrich_alert enrichments results w = (r, w') /\
       store_calls (trace w')
       = store_calls (trace w) ++ [CallEnrichAlert (tenant_id context_manager) fp fields]).
Proof.
  split; [apply enrich_alert_hard_stop|].
  split.
  { intros d fp -> Hd.
    unfold extract_fingerprint, py_contains, py_getitem, dict_contains.
    rewrite Hd. reflexivity. }
  assert (Hloop : forall d item, dict_get d "fingerprint" = None ->
            loop_item (foreach_context context_manager) = Some item ->
            extract_fingerprint (PDict d) = item_get_fingerprint item).
  { intros d item Hd Hitem.
    unfold extract_fingerprint, py_contains, dict_contains. rewrite Hd.
    unfold loop_item in Hitem. unfold foreach_truthy.
    destruct (foreach_context context_manager) as [[v|[|first items]]|]; try discriminate.
    - destruct (truthy v); [|discriminate]. congruence.
    - congruence. }
  split.
  { intros d item_d -> Hd Hitem. rewrite (Hloop _ _ Hd Hitem). reflexivity. }
  split.
  { intros d item -> Hd Hitem Hnot. rewrite (Hloop _ _ Hd Hitem).
    destruct item; try reflexivity. discriminate. }
  split.
  { intros d -> Hd Hitem.
    unfold extract_fingerprint, py_contains, dict_contains. rewrite Hd.
    assert (Hf : foreach_truthy (foreach_context context_manager) = false).
    { unfold loop_item in Hitem. unfold foreach_truthy.
      destruct (foreach_context context_manager) as [[v|[|first items]]|];
        try reflexivity; try discriminate.
      destruct (truthy v); [discriminate | reflexivity]. }
    rewrite Hf. unfold event_context_truthy.
    destruct (event_context context_manager) as [|d'|a]; try reflexivity.
    destruct d'; reflexivity. }
  intros fp. apply enrich_alert_reaches_store.
Qed.

Lemma enrich_alert_fingerprint_tiers_witness :
  exists e w',
    @_enrich_alert Demo.collaborators
       (Demo.provider (Demo.context (Some (ForeachItem (PDict [("fingerprint", PStr "loop")])))
                                    (EventDict [("fingerprint", PStr "event")])) [])
       [PDict [("key", PStr "x"); ("value", PStr "y")]]
       (PDict [("fingerprint", PStr "")]) (Demo.world_of [])
    = (Raise e, w') /\
    store_calls (trace w') = store_calls (trace (Demo.world_of [])).
Proof.
  apply (proj1 (@enrich_alert_fingerprint_tiers Demo.collaborators _ _ _ _)).
  intros fp Hfp. vm_compute in Hfp. injection Hfp as <-. reflexivity.
Defined.

(** ** The order of [str] keys *)

Lemma ascii_compare_refl a : Ascii.compare a a = Eq.
Proof. unfold Ascii.compare. apply N.compare_refl. Qed.

Lemma ascii_compare_lt_trans a b c :
  Ascii.compare a b = Lt -> Ascii.compare b c = Lt -> Ascii.compare a c = Lt.
Proof.
  unfold Ascii.compare. rewrite !N.compare_lt_iff. apply N.lt_trans.
Qed.

Lemma string_compare_lt_trans a : forall b c,
  String.compare a b = Lt -> String.compare b c = Lt -> String.compare a c = Lt.
Proof.
  induction a as [|x a IH]; intros [|y b] [|z c]; simpl; try discriminate; auto.
  destruct (Ascii.compare x y) eqn:Hxy; try discriminate;
    destruct (Ascii.compare y z) eqn:Hyz; try discriminate; intros H1 H2.
  - apply Ascii.compare_eq_iff in Hxy, Hyz. subst. rewrite ascii_compare_refl. eauto.
  - apply Ascii.compare_eq_iff in Hxy. subst. rewrite Hyz. reflexivity.
  - apply Ascii.compare_eq_iff in Hyz. subst. rewrite Hxy. reflexivity.
  - rewrite (ascii_compare_lt_trans _ _ _ Hxy Hyz). reflexivity.
Qed.

Lemma string_ltb_lt a b : String.ltb a b = true <-> String.compare a b = Lt.
Proof. unfold String.ltb. destruct (String.compare a b); split; congruence. Qed.

Lemma string_ltb_trans a b c :
  String.ltb a b = true -> String.ltb b c = true -> String.ltb a c = true.
Proof. rewrite !string_ltb_lt. apply string_compare_lt_trans. Qed.

Lemma string_compare_refl a : String.compare a a = Eq.
Proof. induction a as [|x a IH]; simpl; [reflexivity|]. rewrite ascii_compare_refl. exact IH. Qed.

Lemma string_ltb_irrefl a : String.ltb a a = false.
Proof. unfold String.ltb. rewrite string_compare_refl. reflexivity. Qed.

(** Not above and not equal is below. *)
Lemma string_ltb_total a b :
  String.ltb b a = false -> a <> b -> String.ltb a b = true.
Proof.
  intros Hba Hne. apply string_ltb_lt.
  destruct (String.compare a b) eqn:Hab; [| reflexivity |].
  - apply String.compare_eq_iff in Hab. contradiction.
  - rewrite String.compare_antisym in Hab.
    destruct (String.compare b a) eqn:Hc; try discriminate.
    unfold String.ltb in Hba. rewrite Hc in Hba. discriminate.
Qed.

Lemma string_ltb_asym a b : String.ltb a b = true -> String.ltb b a = false.
Proof.
  intros Hab. destruct (String.ltb b a) eqn:Hba; [|reflexivity].
  pose proof (string_ltb_trans _ _ _ Hab Hba) as H. rewrite string_ltb_irrefl in H. discriminate.
Qed.

(** ** The groups are a partition of the fetched alerts *)

Lemma str_le_trans a b c : str_le a b -> str_le b c -> str_le a c.
Proof.
  unfold str_le. intros Hab Hbc.
  destruct (String.ltb c a) eqn:Hca; [|reflexivity].
  destruct (String.eqb_spec a b) as [->|Hne]; [congruence|].
  pose proof (string_ltb_total a b Hab Hne) as Hlt.
  pose proof (string_ltb_trans _ _ _ Hca Hlt). congruence.
Qed.

Lemma insert_by_key_str (x : string * ref) (ps : list (string * ref)) :
  exists ps',
    insert_by_key (str_keyed x) (map str_keyed ps) = Ok (map str_keyed ps') /\
    Permutation ps' (x :: ps) /\
    (Sorted str_le (map fst ps) -> Sorted str_le (map fst ps')) /\
    (forall z, str_le z (fst x) -> HdRel str_le z (map fst ps) -> HdRel str_le z (map fst ps')) /\
    (forall a, List.filter (key_is a) ps' = List.filter (key_is a) (x :: ps)).
Proof.
  induction ps as [|y ps IH]; simpl.
  - exists [x]. split; [reflexivity|]. split; [reflexivity|]. split; [|split].
    + intros _. simpl. repeat constructor.
    + intros z Hz _. simpl. constructor. exact Hz.
    + reflexivity.
  - destruct (String.ltb (fst y) (fst x)) eqn:Hyx.
    + destruct IH as (ps' & Hrun & Hperm & Hsorted & Hhd & Hstable). rewrite Hrun.
      exists (y :: ps'). split; [reflexivity|]. split; [|split; [|split]].
      * rewrite Hperm. apply perm_swap.
      * intros Hs. inversion Hs as [|? ? Hs' Hh]; subst. simpl. constructor.
        -- apply Hsorted, Hs'.
        -- apply Hhd; [|exact Hh]. apply string_ltb_asym. exact Hyx.
      * intros z _ Hz. inversion Hz; subst. simpl. constructor. assumption.
      * (* x went past y, so the two keys differ *)
        intros a. simpl. rewrite Hstable. simpl. unfold key_is.
        destruct (String.eqb_spec (fst y) a) as [Hy|Hy];
          destruct (String.eqb_spec (fst x) a) as [Hx|Hx]; try reflexivity.
        rewrite Hy, Hx, string_ltb_irrefl in Hyx. discriminate.
    + exists (x :: y :: ps). split; [reflexivity|]. split; [reflexivity|]. split; [|split].
      * intros Hs. simpl. constructor; [exact Hs|]. constructor. exact Hyx.
      * intros z Hzx _. simpl. constructor. exact Hzx.
      * reflexivity.
Qed.

Lemma sort_by_key_str (ps : list (string * ref)) :
  exists ps',
    sort_by_key (map str_keyed ps) = Ok (map str_keyed ps') /\
    Permutation ps' ps /\
    Sorted str_le (map fst ps') /\
    (forall a, List.filter (key_is a) ps' = List.filter (key_is a) ps).
Proof.
  induction ps as [|x ps IH]; simpl.
  - exists []. split; [reflexivity|]. split; [constructor|]. split; [constructor|reflexivity].
  - destruct IH as (ps1 & Hrun & Hperm & Hsorted & Hstable). rewrite Hrun.
    destruct (insert_by_key_str x ps1) as (ps2 & Hins & Hperm2 & Hs2 & _ & Hstable2).
    exists ps2. split; [exact Hins|]. split; [|split].
    + rewrite Hperm2. constructor. exact Hperm.
    + apply Hs2, Hsorted.
    + intros a. rewrite Hstable2. simpl. rewrite Hstable. reflexivity.
Qed.

Lemma sorted_str_le_strong (l : list string) : Sorted str_le l -> StronglySorted str_le l.
Proof. apply Sorted_StronglySorted. intros a b c. apply str_le_trans. Qed.

Lemma filter_key_absent (a : string) (ps : list (string * ref)) :
  ~ In a (map fst ps) -> List.filter (key_is a) ps = [].
Proof.
  induction ps as [|[b r] ps IH]; simpl; [reflexivity|].
  intros Habs. unfold key_is at 1. simpl.
  destruct (String.eqb_spec b a) as [->|Hne]; [exfalso; apply Habs; left; reflexivity|].
  apply IH. intros Hin. apply Habs. right. exact Hin.
Qed.

(** The runs of a sorted list: no key twice, and under each key the
    alerts of that key, in the order of the list. *)
Lemma groupby_str (ps : list (string * ref)) :
  StronglySorted str_le (map fst ps) ->
  exists gs,
    groupby (map str_keyed ps) = map str_group gs /\
    concat (map snd gs) = map snd ps /\
    (forall a, In a (map fst gs) <-> In a (map fst ps)) /\
    List.NoDup (map fst gs) /\
    hd_error (map fst gs) = hd_error (map fst ps) /\
    (forall a g, In (a, g) gs -> g = map snd (List.filter (key_is a) ps)).
Proof.
  induction ps as [|[a r] ps IH]; intros Hs.
  - exists []. simpl. split; [reflexivity|]. split; [reflexivity|].
    split; [tauto|]. split; [constructor|]. split; [reflexivity|]. intros b g [].
  - simpl in Hs. inversion Hs as [|? ? Hs' Hall]; subst.
    destruct (IH Hs') as (gs & Hrun & Hcat & Hkeys & Hnd & Hhd & Hfil).
    simpl. rewrite Hrun.
    destruct gs as [|[a' g'] rest]; simpl.
    + exists [(a, [r])]. simpl.
      destruct ps as [|p ps]; [|discriminate Hhd].
      split; [reflexivity|]. split; [reflexivity|].
      split; [intros b; simpl; tauto|].
      split; [constructor; [intros []|constructor]|].
      split; [reflexivity|].
      intros b g [Heq|[]]. injection Heq as <- <-.
      simpl. unfold key_is. simpl. rewrite String.eqb_refl. reflexivity.
    + destruct (String.eqb_spec a a') as [<-|Hne].
      * exists ((a, r :: g') :: rest). simpl in *.
        split; [reflexivity|]. split; [rewrite <- Hcat; reflexivity|].
        split; [intros b; rewrite <- Hkeys; simpl; tauto|].
        split; [exact Hnd|]. split; [reflexivity|].
        intros b g [Heq|Hrest].
        -- injection Heq as <- <-. unfold key_is at 1. simpl.
           rewrite String.eqb_refl. simpl. f_equal.
           apply Hfil. left. reflexivity.
        -- assert (Hb : a <> b).
           { intros <-. apply List.NoDup_cons_iff in Hnd. destruct Hnd as [Habs _].
             apply Habs. apply in_map_iff. exists (a, g). auto. }
           unfold key_is at 1. simpl.
           destruct (String.eqb_spec a b) as [Heq|_]; [contradiction|].
           apply Hfil. right. exact Hrest.
      * (* the head of ps0 is a', which a is below; no later key is a *)
        assert (Hfresh : ~ In a (map fst ps)).
        { intros Hmem.
          destruct ps as [|[a0 r0] ps]; [destruct Hmem|].
          simpl in Hhd. injection Hhd as ->.
          simpl in Hs'. inversion Hs' as [|? ? _ Hall']; subst.
          assert (Hlt : String.ltb a a0 = true).
          { apply string_ltb_total; [|exact Hne].
            inversion Hall; subst. assumption. }
          destruct Hmem as [Heq|Hmem]; [simpl in Heq; congruence|].
          rewrite List.Forall_forall in Hall'. specialize (Hall' a Hmem).
          unfold str_le in Hall'. congruence. }
        exists ((a, [r]) :: (a', g') :: rest). simpl in *.
        split; [reflexivity|]. split; [rewrite <- Hcat; reflexivity|].
        split; [intros b; rewrite <- Hkeys; simpl; tauto|].
        split; [constructor; [intros Hin; apply Hfresh, Hkeys; exact Hin | exact Hnd]|].
        split; [reflexivity|].
        intros b g [Heq|Hrest].
        -- injection Heq as <- <-. unfold key_is at 1. simpl.
           rewrite String.eqb_refl. simpl.
           rewrite (filter_key_absent a ps Hfresh). reflexivity.
        -- assert (Hb : a <> b).
           { intros <-. apply Hfresh, Hkeys.
             destruct Hrest as [Heq|Hin]; [left; congruence|].
             right. apply in_map_iff. exists (a, g). auto. }
           unfold key_is at 1. simpl.
           destruct (String.eqb_spec a b) as [Heq|_]; [contradiction|].
           apply Hfil. exact Hrest.
Qed.

Lemma assoc_set_fresh (acc : list (string * list ref)) (a : string) (g : list ref) :
  ~ In a (map fst acc) ->
  assoc_set (map str_group acc) (PStr a) g = map str_group (acc ++ [(a, g)]).
Proof.
  induction acc as [|[b h] acc IH]; intros Hfresh; simpl; [reflexivity|].
  destruct (String.eqb_spec a b) as [->|Hne].
  - exfalso. apply Hfresh. left. reflexivity.
  - rewrite IH; [reflexivity|]. intros Hin. apply Hfresh. right. exact Hin.
Qed.

(** Groups with distinct [str] keys go into the dict as they come. *)
Lemma dict_of_groups_str (gs : list (string * list ref)) :
  forall acc, List.NoDup (map fst (acc ++ gs)) ->
  dict_of_groups (map str_group gs) (map str_group acc) = Ok (map str_group (acc ++ gs)).
Proof.
  induction gs as [|[a g] gs IH]; intros acc Hnd; simpl.
  - rewrite app_nil_r. reflexivity.
  - unfold setitem. simpl. rewrite assoc_set_fresh.
    + rewrite IH; rewrite <- app_assoc; simpl; [reflexivity | exact Hnd].
    + rewrite map_app in Hnd. simpl in Hnd.
      apply List.NoDup_remove_2 in Hnd. intros Hin. apply Hnd.
      apply in_or_app. left. exact Hin.
Qed.

Lemma assoc_get_str (gs : list (string * list ref)) (a : string) :
  In a (map fst gs) -> exists g, assoc_get (map str_group gs) (PStr a) = Some g.
Proof.
  induction gs as [|[b h] gs IH]; simpl; [intros []|].
  intros Hin. destruct (String.eqb_spec a b) as [->|Hne]; [eauto|].
  destruct Hin as [Heq|Hin]; [congruence|]. apply IH, Hin.
Qed.

Lemma map_m_with_key (l : list ref) (w : world) :
  (forall r, In r l -> carries_fingerprint (heap w) r) ->
  map_m (with_key "fingerprint") l w = (Ok (map str_keyed (map (with_text (heap w)) l)), w).
Proof.
  induction l as [|r l IH]; intros Hall; simpl; [reflexivity|].
  unfold bind at 1. unfold with_key at 1. unfold bind, deref, lift, ret.
  destruct (Hall r (or_introl eq_refl)) as [s Hs]. rewrite Hs.
  fold (@bind (list (pyval * ref))). 
  unfold bind. rewrite IH by (intros r' Hr'; apply Hall; right; exact Hr').
  unfold str_keyed, with_text, fingerprint_text. simpl. rewrite Hs. reflexivity.
Qed.

(** Overlaying stored enrichments changes attributes only: it neither
    raises nor adds to the trace. *)
Lemma for_each_modify (f g : AlertDto -> AlertDto) (l : list ref) (w : world) :
  exists w',
    for_each l (fun r => modify r f ;;; modify r g) w = (Ok tt, w') /\ trace w' = trace w.
Proof.
  revert w. induction l as [|r l IH]; intros w; simpl.
  - exists w. split; reflexivity.
  - unfold bind at 1. unfold bind at 1. unfold modify at 1 2. simpl.
    match goal with |- context [for_each l _ ?w0] => destruct (IH w0) as (w' & Hrun & Htr) end.
    exists w'. split; [exact Hrun | exact Htr].
Qed.

Lemma enrich_rows_ok `{Collaborators} (gs : list (string * list ref))
    (rows : list (option AlertEnrichment)) (w : world) :
  (forall row, In (Some row) rows -> In (alert_fingerprint row) (map fst gs)) ->
  exists w',
    for_each rows (enrich_group (map str_group gs)) w = (Ok tt, w') /\ trace w' = trace w.
Proof.
  revert w. induction rows as [|row rows IH]; intros w Hrows; simpl.
  - exists w. split; reflexivity.
  - assert (Hrest : forall row0, In (Some row0) rows -> In (alert_fingerprint row0) (map fst gs))
      by (intros row0 Hin; apply Hrows; right; exact Hin).
    unfold bind at 1. destruct row as [row|]; simpl.
    + destruct (assoc_get_str gs (alert_fingerprint row)) as [g Hg];
        [apply Hrows; left; reflexivity|].
      rewrite Hg.
      destruct (for_each_modify
                  (fun a => parse_and_enrich_deleted_and_assignees a (enrichments row))
                  (overlay (enrichments row)) g w) as (w1 & Hrun & Htr).
      rewrite Hrun.
      destruct (IH w1 Hrest) as (w2 & Hrun2 & Htr2).
      exists w2. split; [exact Hrun2 | congruence].
    + apply IH, Hrest.
Qed.

Lemma with_text_fixed (h : ref -> AlertDto) (l : list ref) (ps : list (string * ref)) :
  Permutation ps (map (with_text h) l) ->
  map (with_text h) (map snd ps) = ps /\ Permutation (map snd ps) l.
Proof.
  intros Hperm. split.
  - assert (Hall : forall p, In p ps -> with_text h (snd p) = p).
    { intros p Hp. apply (Permutation_in _ Hperm) in Hp.
      apply in_map_iff in Hp. destruct Hp as (r & <- & _). reflexivity. }
    clear Hperm. induction ps as [|p ps IH]; simpl; [reflexivity|].
    rewrite (Hall p (or_introl eq_refl)), IH; [reflexivity|].
    intros q Hq. apply Hall. right. exact Hq.
  - apply (Permutation_map snd) in Hperm. rewrite Hperm.
    rewrite map_map. simpl. rewrite map_id. reflexivity.
Qed.

Lemma carries_fingerprint_text (h : ref -> AlertDto) (r : ref) :
  carries_fingerprint h r -> getattr (h r) "fingerprint" = Ok (PStr (fingerprint_text h r)).
Proof. intros [s Hs]. unfold fingerprint_text. rewrite Hs. reflexivity. Qed.

Lemma filter_with_text (h : ref -> AlertDto) (a : string) (l : list ref) :
  map snd (List.filter (key_is a) (map (with_text h) l))
  = List.filter (fun r => String.eqb (fingerprint_text h r) a) l.
Proof.
  induction l as [|r l IH]; simpl; [reflexivity|].
  unfold key_is at 1. simpl.
  destruct (String.eqb (fingerprint_text h r) a); simpl; rewrite IH; reflexivity.
Qed.

(** What [get_alerts_by_fingerprint] returns when the fetched alerts carry
    fingerprints: one group for each fingerprint, holding the fetched
    alerts of that fingerprint in the order they were fetched. *)
Lemma get_alerts_by_fingerprint_groups `{Collaborators} `{Provider}
    (tenant : string) (w w1 : world) (alerts : list ref) :
  get_alerts w = (Ok alerts, w1) ->
  (forall r, In r alerts -> carries_fingerprint (heap w1) r) ->
  (forall fingerprints, exists rows,
     get_enrichments tenant fingerprints = Ok rows /\
     forall row, In (Some row) rows -> In (PStr (alert_fingerprint row)) fingerprints) ->
  exists gs w2,
    get_alerts_by_fingerprint tenant w = (Ok (map str_group gs), w2) /\
    List.NoDup (map fst gs) /\
    Permutation (concat (map snd gs)) alerts /\
    (forall a, In a (map fst gs) <-> In a (map (fingerprint_text (heap w1)) alerts)) /\
    (forall a g, In (a, g) gs ->
       g = List.filter (fun r => String.eqb (fingerprint_text (heap w1) r) a) alerts).
Proof.
  intros Hget Hcarry Hstore.
  unfold get_alerts_by_fingerprint, bind at 1. rewrite Hget.
  destruct alerts as [|r0 rest] eqn:Halerts.
  { exists [], w1. split; [reflexivity|]. split; [constructor|]. split; [constructor|].
    split; [tauto|]. intros a g []. }
  cbv beta iota. rewrite <- Halerts in *.
  unfold sorted_by_attr, bind. rewrite (map_m_with_key alerts w1 Hcarry). unfold lift.
  destruct (sort_by_key_str (map (with_text (heap w1)) alerts))
    as (ps & Hsort & Hperm & Hsorted & Hstable).
  rewrite Hsort. unfold ret at 1.
  destruct (with_text_fixed _ _ _ Hperm) as [Hfix Hrefs].
  replace (map snd (map str_keyed ps)) with (map snd ps)
    by (rewrite map_map; reflexivity).
  rewrite map_m_with_key.
  2:{ intros r Hr. apply Hcarry. apply (Permutation_in _ Hrefs). exact Hr. }
  rewrite Hfix.
  destruct (groupby_str ps (sorted_str_le_strong _ Hsorted))
    as (gs & Hgroups & Hcat & Hkeys & Hnd & _ & Hfil).
  rewrite Hgroups.
  pose proof (dict_of_groups_str gs [] Hnd) as Hdict. simpl in Hdict. rewrite Hdict.
  unfold emit at 1.
  destruct (Hstore (map fst (map str_group gs))) as (rows & Hrows & Hasked).
  rewrite Hrows.
  match goal with |- context [for_each rows _ ?w0] =>
    destruct (enrich_rows_ok gs rows w0) as (w2 & Hloop & _) end.
  { intros row Hrow. apply Hasked in Hrow. rewrite map_map in Hrow.
    apply in_map_iff in Hrow. destruct Hrow as (p & Heq & Hp).
    simpl in Heq. injection Heq as <-. apply in_map. exact Hp. }
  exists gs, w2. rewrite Hloop. split; [reflexivity|]. split; [exact Hnd|].
  split; [|split].
  - rewrite Hcat. exact Hrefs.
  - intros a. rewrite Hkeys.
    rewrite (Permutation_map fst Hperm) at 1. rewrite map_map. simpl. reflexivity.
  - intros a g Hg. rewrite (Hfil a g Hg), Hstable. apply filter_with_text.
Qed.

(** C3: when every fetched alert carries a fingerprint (and the store
    answers with rows of the fingerprints it was asked for), the mapping
    [get_alerts_by_fingerprint] returns is a partition of the fetched
    alerts: its keys are distinct and are exactly the fingerprints of the
    fetched alerts, every fetched alert is in exactly one group, and that
    group is the one keyed by its fingerprint. *)
Theorem get_alerts_by_fingerprint_partition `{Collaborators} `{Provider}
    (tenant : string) (w w1 : world) (alerts : list ref) :
  get_alerts w = (Ok alerts, w1) ->
  (forall r, In r alerts -> carries_fingerprint (heap w1) r) ->
  (forall fingerprints, exists rows,
     get_enrichments tenant fingerprints = Ok rows /\
     forall row, In (Some row) rows -> In (PStr (alert_fingerprint row)) fingerprints) ->
  exists groups w2,
    get_alerts_by_fingerprint tenant w = (Ok groups, w2) /\
    List.NoDup (map fst groups) /\
    (forall k, In k (map fst groups) <->
               exists r, In r alerts /\ getattr (heap w1 r) "fingerprint" = Ok k) /\
    Permutation (concat (map snd groups)) alerts /\
    (forall k g r, In (k, g) groups -> In r g ->
                   In r alerts /\ getattr (heap w1 r) "fingerprint" = Ok k).
Proof.
  intros Hget Hcarry Hstore.
  destruct (get_alerts_by_fingerprint_groups tenant w w1 alerts Hget Hcarry Hstore)
    as (gs & w2 & Hrun & Hnd & Hperm & Hkeys & Hfil).
  exists (map str_group gs), w2.
  split; [exact Hrun|].
  split.
  { rewrite map_map. simpl.
    replace (map (fun x => PStr (fst x)) gs) with (map PStr (map fst gs))
      by (rewrite map_map; reflexivity).
    apply Finite.Injective_map_NoDup; [|exact Hnd].
    intros a b Hab. injection Hab as ->. reflexivity. }
  split; [|split].
  - intros k. rewrite map_map. simpl. split.
    + intros Hk. apply in_map_iff in Hk. destruct Hk as ([a g] & <- & Hag). simpl.
      assert (Ha : In a (map fst gs)) by (apply in_map_iff; exists (a, g); auto).
      apply Hkeys in Ha. apply in_map_iff in Ha. destruct Ha as (r & <- & Hr).
      exists r. split; [exact Hr|]. apply carries_fingerprint_text, Hcarry, Hr.
    + intros (r & Hr & Hk).
      rewrite (carries_fingerprint_text _ _ (Hcarry r Hr)) in Hk. injection Hk as <-.
      assert (Ha : In (fingerprint_text (heap w1) r) (map fst gs))
        by (apply Hkeys, in_map, Hr).
      apply in_map_iff in Ha. destruct Ha as (p & Hp & Hin).
      apply in_map_iff. exists p. rewrite Hp. auto.
  - replace (map snd (map str_group gs)) with (map snd gs)
      by (rewrite map_map; reflexivity).
    exact Hperm.
  - intros k g r Hg Hr. apply in_map_iff in Hg. destruct Hg as ([a g0] & Heq & Hg).
    unfold str_group in Heq. simpl in Heq. injection Heq as <- <-.
    rewrite (Hfil a g0 Hg) in Hr. apply filter_In in Hr. destruct Hr as [Hr Ha].
    apply String.eqb_eq in Ha. subst a.
    split; [exact Hr|]. apply carries_fingerprint_text, Hcarry, Hr.
Qed.

(** The store of the examples answers with rows of the fingerprints it was
    asked for. *)
Lemma demo_store_answers_asked (tenant : string) (fingerprints : list pyval) :
  exists rows,
    @get_enrichments Demo.collaborators tenant fingerprints = Ok rows /\
    forall row, In (Some row) rows -> In (PStr (alert_fingerprint row)) fingerprints.
Proof.
  eexists. split; [reflexivity|].
  intros row Hrow. apply in_map_iff in Hrow. destruct Hrow as (row' & Heq & Hin).
  injection Heq as ->. apply filter_In in Hin. destruct Hin as [_ Hasked].
  apply existsb_exists in Hasked. destruct Hasked as (k & Hk & Heq).
  destruct k; simpl in Heq; try discriminate.
  apply String.eqb_eq in Heq. subst. exact Hk.
Qed.

Lemma get_alerts_by_fingerprint_partition_witness :
  let P := Demo.provider Demo.no_context [0; 1; 2] in
  let w := Demo.world_of Demo.three_alerts in
  let w1 := snd (@get_alerts P w) in
  exists groups w2,
    @get_alerts_by_fingerprint Demo.collaborators P "tenant" w = (Ok groups, w2) /\
    List.NoDup (map fst groups) /\
    (forall k, In k (map fst groups) <->
               exists r, In r [0; 1; 2] /\ getattr (heap w1 r) "fingerprint" = Ok k) /\
    Permutation (concat (map snd groups)) [0; 1; 2] /\
    (forall k g r, In (k, g) groups -> In r g ->
                   In r [0; 1; 2] /\ getattr (heap w1 r) "fingerprint" = Ok k).
Proof.
  cbv zeta.
  apply (@get_alerts_by_fingerprint_partition Demo.collaborators
           (Demo.provider Demo.no_context [0; 1; 2]) "tenant"
           (Demo.world_of Demo.three_alerts)).
  - reflexivity.
  - intros r [<- | [<- | [<- | []]]]; eexists; vm_compute; reflexivity.
  - apply demo_store_answers_asked.
Defined.

(** The example of the specification: fingerprints f1, f2, f1 give two
    groups, the two alerts of f1 together, every alert once. *)
Example three_alerts_two_groups :
  fst (@get_alerts_by_fingerprint Demo.collaborators
         (Demo.provider Demo.no_context [0; 1; 2]) "tenant"
         (Demo.world_of Demo.three_alerts))
  = Ok [(PStr "f1", [0; 2]); (PStr "f2", [1])].
Proof. vm_compute. reflexivity. Qed.


(** ** What the enrichment loop does instruction by instruction *)

Lemma startswith_app (p s : string) : startswith p (p +:+ s) = true.
Proof.
  induction p as [|a p IH]; simpl; [reflexivity|].
  rewrite Ascii.eqb_refl. exact IH.
Qed.

Lemma remove_from_skip (old p s : string) :
  remove_from old (String.length p) (p +:+ s) = remove_from old 0 s.
Proof. induction p as [|a p IH]; simpl; [reflexivity | exact IH]. Qed.

Lemma remove_from_absent (old s : string) :
  str_contains old s = false -> remove_from old 0 s = s.
Proof.
  induction s as [|a s IH]; simpl; [reflexivity|].
  intros Habs. apply orb_false_iff in Habs. destruct Habs as [Hhere Hlater].
  change (match old with
          | EmptyString => true
          | String a0 p' =>
              match String a s with
              | EmptyString => false
              | String b s' => Ascii.eqb a0 b && startswith p' s'
              end
          end) with (startswith old (String a s)).
  rewrite Hhere, IH; [reflexivity | exact Hlater].
Qed.

(** When the prefix occurs at the head of the value only, removing every
    occurrence leaves the text after the prefix. *)
Lemma str_remove_prefix_once (rest : string) :
  str_contains "results." rest = false ->
  str_remove "results." ("results." +:+ rest) = rest.
Proof.
  intros Habs. unfold str_remove. simpl String.eqb. cbv iota.
  change ("results." +:+ rest) with (String "r" ("esults." +:+ rest)).
  unfold remove_from at 1. fold remove_from.
  change (String "r" ("esults." +:+ rest)) with ("results." +:+ rest).
  rewrite startswith_app.
  change (String.length "results." - 1) with (String.length "esults.").
  rewrite remove_from_skip. apply remove_from_absent, Habs.
Qed.

(** An instruction whose value starts with [results.], and holds it
    nowhere else, binds its key to what the path after the prefix leads to
    in the results, or raises where the path does. *)
Lemma enrich_one_results_path (results : pyval) (acc : list (pyval * pyval))
    (instruction : dict) (k rest : string) :
  dict_get instruction "key" = Some (PStr k) ->
  dict_get instruction "value" = Some (PStr ("results." +:+ rest)) ->
  str_contains "results." rest = false ->
  enrich_one results acc (PDict instruction)
  = match walk results (split_on "." rest) with
    | Ok r => Ok (assoc_set acc (PStr k) r)
    | Raise e => Raise e
    end.
Proof.
  intros Hkey Hvalue Habs. unfold enrich_one, py_getitem, str_method.
  rewrite Hvalue. rewrite startswith_app.
  rewrite (str_remove_prefix_once rest Habs).
  destruct (walk results (split_on "." rest)); [|reflexivity].
  rewrite Hkey. reflexivity.
Qed.

(** An instruction whose value does not start with [results.] binds its
    key to the value itself. *)
Lemma enrich_one_literal (results : pyval) (acc : list (pyval * pyval))
    (instruction : dict) (k v : string) :
  dict_get instruction "key" = Some (PStr k) ->
  dict_get instruction "value" = Some (PStr v) ->
  startswith "results." v = false ->
  enrich_one results acc (PDict instruction) = Ok (assoc_set acc (PStr k) (PStr v)).
Proof.
  intros Hkey Hvalue Hlit. unfold enrich_one, py_getitem, str_method.
  rewrite Hvalue, Hlit, Hkey. reflexivity.
Qed.

(** An instruction that raises is logged and skipped: the loop goes on with
    the bindings made so far. *)
Lemma compute_enrichments_skips (results : pyval) (enrichment : pyval)
    (rest : list pyval) (acc : list (pyval * pyval)) (e : exn) (w : world) :
  enrich_one results acc enrichment = Raise e ->
  compute_enrichments results (enrichment :: rest) acc w
  = compute_enrichments results rest acc
      (mkWorld (heap w) (trace w ++ [Log "error" "Failed to enrich alert"]) (drawn w)).
Proof. intros Hfail. simpl. rewrite Hfail. reflexivity. Qed.

Lemma compute_enrichments_binds (results : pyval) (enrichment : pyval)
    (rest : list pyval) (acc acc' : list (pyval * pyval)) (w : world) :
  enrich_one results acc enrichment = Ok acc' ->
  compute_enrichments results (enrichment :: rest) acc w
  = compute_enrichments results rest acc' w.
Proof. intros Hok. simpl. rewrite Hok. reflexivity. Qed.

(** The examples of the specification: the path a.b into a mapping that
    has it, and into one that lacks b, followed by a literal. *)
Example enrichment_path_found :
  fst (compute_enrichments (PDict [("a", PDict [("b", PInt 42)])])
         [PDict [("key", PStr "x"); ("value", PStr "results.a.b")]] [] (Demo.world_of []))
  = Ok [(PStr "x", PInt 42)].
Proof. vm_compute. reflexivity. Qed.

Example enrichment_path_missing :
  fst (compute_enrichments (PDict [("a", PDict [])])
         [ PDict [("key", PStr "x"); ("value", PStr "results.a.b")];
           PDict [("key", PStr "y"); ("value", PStr "constant")] ] [] (Demo.world_of []))
  = Ok [(PStr "y", PStr "constant")].
Proof. vm_compute. reflexivity. Qed.

(** * Further properties *)

(** ** The shape of a fingerprint *)









Lemma encode_app (s t : string) : encode (s +:+ t) = encode s ++ encode t.
Proof.
  unfold encode. induction s as [|a s IH]; simpl; [reflexivity|].
  rewrite IH, app_assoc. reflexivity.
Qed.

Lemma field_bytes_str (s : string) : field_bytes (PStr s) = encode s.
Proof.
  unfold field_bytes. simpl. destruct s; reflexivity.
Qed.

(** The texts of the fields are hashed one after the other with nothing
    between them: two alerts whose two text fields read the same once put
    end to end have the same fingerprint, however the text is cut. *)
Theorem get_alert_fingerprint_no_separator (A B : AlertDto) (f g s1 s2 t1 t2 : string) :
  field_value A f = PStr s1 -> field_value A g = PStr s2 ->
  field_value B f = PStr t1 -> field_value B g = PStr t2 ->
  s1 +:+ s2 = t1 +:+ t2 ->
  get_alert_fingerprint A [f; g] = get_alert_fingerprint B [f; g].
Proof.
  intros HAf HAg HBf HBg Hsame.
  rewrite !get_alert_fingerprint_digest by discriminate.
  cbn [flat_map]. rewrite HAf, HAg, HBf, HBg, !field_bytes_str, !app_nil_r.
  rewrite <- !encode_app, Hsame. reflexivity.
Qed.

Lemma get_alert_fingerprint_no_separator_witness :
  get_alert_fingerprint
    (mkAlertDto [("name", PStr "x"); ("service", PStr "ab"); ("environment", PStr "c")])
    ["service"; "environment"]
  = get_alert_fingerprint
      (mkAlertDto [("name", PStr "y"); ("service", PStr "a"); ("environment", PStr "bc")])
      ["service"; "environment"].
Proof.
  apply (get_alert_fingerprint_no_separator _ _ "service" "environment" "ab" "c" "a" "bc");
    reflexivity.
Defined.

(** In a list that keeps at least one other field, a field the alert
    lacks, or whose value is [None], [False], 0 or the empty text, leaves
    no mark: the fingerprint is the same with and without it.  (When it is
    the only field, taking it out leaves the empty list, for which the
    fingerprint is the name of the alert and not a digest.) *)
Theorem get_alert_fingerprint_skips_field (A : AlertDto) (F1 F2 : list string) (f : string) :
  F1 ++ F2 <> [] ->
  truthy (field_value A f) = false ->
  isinstance_list_or_dict (field_value A f) = false ->
  get_alert_fingerprint A (F1 ++ f :: F2) = get_alert_fingerprint A (F1 ++ F2).
Proof.
  intros Hne Hfalsy Hscalar.
  rewrite !get_alert_fingerprint_digest; [|exact Hne|destruct F1; discriminate].
  rewrite !flat_map_app. cbn [flat_map].
  unfold field_bytes at 2. rewrite Hscalar, Hfalsy. reflexivity.
Qed.

Lemma get_alert_fingerprint_skips_field_witness :
  let A := mkAlertDto [("name", PStr "n"); ("service", PStr "db"); ("url", PNone)] in
  get_alert_fingerprint A (["service"] ++ "url" :: ["name"])
  = get_alert_fingerprint A (["service"] ++ ["name"]).
Proof.
  cbv zeta. apply get_alert_fingerprint_skips_field; [discriminate | reflexivity | reflexivity].
Defined.

(** ** The enrichment loop and the store *)

(** The loop over the instructions cannot fail, whatever the instructions
    and the results are: it returns a mapping with at most one binding for
    each instruction, changes no alert, and adds to the trace nothing but
    the log of each instruction it skipped. *)
Theorem enrichment_loop_never_raises (results : pyval) (enrichments : list pyval) :
  forall acc w, exists fields logs,
    compute_enrichments results enrichments acc w
    = (Ok fields, mkWorld (heap w) (trace w ++ logs) (drawn w)) /\
    forallb is_skip_log logs = true /\
    length fields + length logs <= length acc + length enrichments.
Proof.
  assert (Hset : forall (d : list (pyval * pyval)) k v, length (assoc_set d k v) <= S (length d)).
  { induction d as [|[k0 v0] d IH]; intros k v; simpl; [lia|].
    destruct (py_eq k k0); simpl; [lia|]. specialize (IH k v). lia. }
  assert (Hone : forall acc enrichment acc',
             enrich_one results acc enrichment = Ok acc' -> length acc' <= S (length acc)).
  { intros acc enrichment acc'. unfold enrich_one, setitem.
    repeat match goal with
           | |- context [match ?x with _ => _ end] => destruct x; try discriminate
           end; intros Heq; injection Heq as <-; apply Hset. }
  induction enrichments as [|enrichment rest IH]; intros acc w; simpl.
  - exists acc, []. rewrite app_nil_r. destruct w. split; [reflexivity|]. split; [reflexivity|].
    simpl. lia.
  - destruct (enrich_one results acc enrichment) as [acc'|e] eqn:Hstep.
    + destruct (IH acc' w) as (fields & logs & Hrun & Hlogs & Hlen).
      exists fields, logs. split; [exact Hrun|]. split; [exact Hlogs|].
      apply Hone in Hstep. simpl. lia.
    + unfold bind, logger, emit.
      destruct (IH acc (mkWorld (heap w) (trace w ++ [Log "error" "Failed to enrich alert"]) (drawn w)))
        as (fields & logs & Hrun & Hlogs & Hlen).
      exists fields, (Log "error" "Failed to enrich alert" :: logs).
      rewrite Hrun. simpl. rewrite <- app_assoc. simpl.
      split; [reflexivity|]. split; [exact Hlogs|]. simpl in Hlen. lia.
Qed.

(** Cutting at the dots gives back the parts that were joined with dots. *)
Lemma split_on_dot_free (p : string) : dot_free p = true -> split_on "." p = [p].
Proof.
  induction p as [|a p IH]; [reflexivity|].
  cbn [dot_free split_on]. intros Hp. apply andb_prop in Hp. destruct Hp as [Ha Hp].
  apply negb_true_iff in Ha. rewrite Ha, (IH Hp). reflexivity.
Qed.

Lemma split_on_app_dot (p rest : string) :
  dot_free p = true -> split_on "." (p +:+ String "." rest) = p :: split_on "." rest.
Proof.
  induction p as [|a p IH]; [reflexivity|].
  cbn [dot_free]. intros Hp. apply andb_prop in Hp. destruct Hp as [Ha Hp].
  apply negb_true_iff in Ha.
  change (String a p +:+ String "." rest) with (String a (p +:+ String "." rest)).
  cbn [split_on]. rewrite Ha, (IH Hp). reflexivity.
Qed.

Lemma split_on_concat (parts : list string) :
  parts <> [] -> forallb dot_free parts = true ->
  split_on "." (String.concat "." parts) = parts.
Proof.
  induction parts as [|p [|q qs] IH]; intros Hne Hfree; [congruence| |].
  - simpl in Hfree. apply andb_prop in Hfree. apply split_on_dot_free, Hfree.
  - cbn [forallb] in Hfree. apply andb_prop in Hfree. destruct Hfree as [Hp Hq].
    change (String.concat "." (p :: q :: qs))
      with (p +:+ String "." (String.concat "." (q :: qs))).
    rewrite (split_on_app_dot _ _ Hp), IH; [reflexivity | discriminate | exact Hq].
Qed.

(** The walk returns a value exactly when the path leads to it. *)
Lemma walk_leads_to (parts : list string) : forall r v,
  walk r parts = Ok v <-> leads_to r parts v.
Proof.
  induction parts as [|part parts IH]; intros r v; split.
  - intros Heq. injection Heq as <-. constructor.
  - intros Hl. inversion Hl; subst. reflexivity.
  - cbn [walk]. unfold py_getitem. destruct r; try discriminate.
    destruct (dict_get _ part) as [r'|] eqn:Hd; [|discriminate].
    intros Hw. econstructor; [exact Hd | apply IH, Hw].
  - intros Hl. inversion Hl; subst. cbn [walk]. unfold py_getitem.
    match goal with Hd : dict_get _ _ = Some _ |- _ => rewrite Hd end.
    apply IH. assumption.
Qed.

(** An instruction whose value is [results.] followed by the parts of a
    path joined with dots, and holds [results.] nowhere else: when every
    step of the path is a key of the dict reached so far, the key of the
    instruction is bound to the value the last step holds, and the loop
    goes on from there; when the path leads nowhere, the instruction is
    skipped with an error log and the loop goes on with the bindings it
    had.  The path may have any number of steps. *)
Theorem enrichment_path_instruction (results : pyval) (instruction : dict)
    (k : string) (parts : list string) (rest : list pyval)
    (acc : list (pyval * pyval)) (w : world) :
  dict_get instruction "key" = Some (PStr k) ->
  dict_get instruction "value" = Some (PStr ("results." +:+ String.concat "." parts)) ->
  parts <> [] ->
  forallb dot_free parts = true ->
  str_contains "results." (String.concat "." parts) = false ->
  (forall v, leads_to results parts v ->
     compute_enrichments results (PDict instruction :: rest) acc w
     = compute_enrichments results rest (assoc_set acc (PStr k) v) w)
  /\
  ((forall v, ~ leads_to results parts v) ->
     compute_enrichments results (PDict instruction :: rest) acc w
     = compute_enrichments results rest acc
         (mkWorld (heap w) (trace w ++ [Log "error" "Failed to enrich alert"]) (drawn w))).
Proof.
  intros Hkey Hvalue Hne Hfree Honce. cbn [compute_enrichments].
  rewrite (enrich_one_results_path results acc instruction k _ Hkey Hvalue Honce).
  rewrite (split_on_concat parts Hne Hfree).
  split.
  - intros v Hv. apply walk_leads_to in Hv. rewrite Hv. reflexivity.
  - intros Hnone. destruct (walk results parts) as [v|e] eqn:Hw; [|reflexivity].
    apply walk_leads_to in Hw. destruct (Hnone v Hw).
Qed.

Lemma enrichment_path_instruction_witness :
  fst (compute_enrichments
         (PDict [("a", PDict [("b", PDict [("c", PInt 42); ("d", PInt 7)])]); ("c", PInt 0)])
         [PDict [("key", PStr "x"); ("value", PStr "results.a.b.c")]] [] (Demo.world_of []))
  = Ok [(PStr "x", PInt 42)].
Proof.
  assert (Hparts : ["a"; "b"; "c"] <> @nil string) by discriminate.
  rewrite (proj1 (enrichment_path_instruction
                    (PDict [("a", PDict [("b", PDict [("c", PInt 42); ("d", PInt 7)])]);
                            ("c", PInt 0)])
                    [("key", PStr "x"); ("value", PStr "results.a.b.c")]
                    "x" ["a"; "b"; "c"] [] [] (Demo.world_of [])
                    eq_refl eq_refl Hparts eq_refl eq_refl) (PInt 42)).
  - reflexivity.
  - repeat (econstructor; [reflexivity|]). constructor.
Defined.



(** When the store refuses the write, [_enrich_alert] logs the failure and
    raises the exception of the store: the loss is not swallowed. *)
Theorem enrich_alert_storage_error `{Collaborators} `{Provider}
    (enrichments : list pyval) (results fp : pyval) (e : exn) (w : world) :
  extract_fingerprint results = Ok fp ->
  truthy fp = true ->
  (forall fields, enrich_alert (tenant_id context_manager) fp fields = Raise e) ->
  exists w',
    _enrich_alert enrichments results w = (Raise e, w') /\
    last (trace w') = Some (Log "error" "Failed to enrich alert in db") /\
    heap w' = heap w.
Proof.
  intros Hfp Htrue Hstore. unfold _enrich_alert, bind, lift. simpl.
  rewrite Hfp, Htrue. simpl.
  set (w1 := mkWorld _ _ _).
  destruct (compute_enrichments_total results enrichments [] w1)
    as (fields & w2 & Hrun & Hheap & _).
  rewrite Hrun. unfold try_except, bind, logger, emit, lift, raise. simpl.
  rewrite Hstore. eexists. split; [reflexivity|]. simpl. split; [|exact Hheap].
  apply last_snoc.
Qed.

Lemma enrich_alert_storage_error_witness :
  exists w',
    @_enrich_alert failing_store (Demo.provider Demo.no_context [])
       [PDict [("key", PStr "x"); ("value", PStr "y")]]
       (PDict [("fingerprint", PStr "fp")]) (Demo.world_of [])
    = (Raise StorageError, w') /\
    last (trace w') = Some (Log "error" "Failed to enrich alert in db") /\
    heap w' = heap (Demo.world_of []).
Proof.
  apply (@enrich_alert_storage_error failing_store (Demo.provider Demo.no_context [])
           _ _ (PStr "fp")); [reflexivity | reflexivity | intros fields; reflexivity].
Defined.

Lemma extract_fingerprint_not_a_dict `{Provider} (results : pyval) :
  isinstance_dict results = false ->
  py_contains results "fingerprint" <> Ok false ->
  extract_fingerprint results = Raise TypeError.
Proof.
  intros Hnd Hin. unfold extract_fingerprint.
  destruct results as [|b|z|s|l|d]; try discriminate Hnd;
    unfold py_contains in *; try reflexivity.
  - destruct (str_contains "fingerprint" s); [reflexivity | congruence].
  - destruct (existsb (py_eq (PStr "fingerprint")) l); [reflexivity | congruence].
Qed.

Lemma enrich_alert_extraction_fails `{Collaborators} `{Provider}
    (enrichments : list pyval) (results : pyval) (e : exn) (w : world) :
  extract_fingerprint results = Raise e ->
  _enrich_alert enrichments results w
  = (Raise e, mkWorld (heap w)
                (trace w ++ [Log "debug" "Extracting the fingerprint from the alert"])
                (drawn w)).
Proof.
  intros Hfp. unfold _enrich_alert, bind, logger, emit, lift. simpl. rewrite Hfp. reflexivity.
Qed.

(** Results that are not a dict never yield a fingerprint of their own:
    [None], a number or a boolean make the membership test raise
    [TypeError], and so does a text or a list in which the test finds
    the word, since the lookup that follows needs a dict.  The store is
    not reached. *)
Theorem enrich_alert_results_not_a_dict `{Collaborators} `{Provider}
    (enrichments : list pyval) (results : pyval) (w : world) :
  isinstance_dict results = false ->
  py_contains results "fingerprint" <> Ok false ->
  exists w',
    _enrich_alert enrichments results w = (Raise TypeError, w') /\
    store_calls (trace w') = store_calls (trace w).
Proof.
  intros Hnd Hin.
  rewrite (enrich_alert_extraction_fails enrichments results TypeError w
             (extract_fingerprint_not_a_dict results Hnd Hin)).
  eexists. split; [reflexivity|]. simpl. apply store_calls_log.
Qed.

Lemma enrich_alert_results_not_a_dict_witness :
  exists w',
    @_enrich_alert Demo.collaborators
       (Demo.provider (Demo.context None (EventDict [("fingerprint", PStr "event")])) [])
       [PDict [("key", PStr "x"); ("value", PStr "y")]]
       (PStr "no fingerprint here") (Demo.world_of [])
    = (Raise TypeError, w') /\
    store_calls (trace w') = store_calls (trace (Demo.world_of [])).
Proof.
  apply (@enrich_alert_results_not_a_dict Demo.collaborators); [reflexivity | discriminate].
Defined.

(** ** Attributes and loops over alerts *)

Lemma dict_get_set_same (d : dict) (k : string) (v : pyval) :
  dict_get (dict_set d k v) k = Some v.
Proof.
  induction d as [|[k0 v0] d IH]; simpl.
  - rewrite String.eqb_refl. reflexivity.
  - destruct (String.eqb k k0) eqn:Hk; simpl.
    + rewrite String.eqb_refl. reflexivity.
    + rewrite Hk. exact IH.
Qed.

Lemma dict_get_set_other (d : dict) (k k' : string) (v : pyval) :
  k' <> k -> dict_get (dict_set d k v) k' = dict_get d k'.
Proof.
  intros Hne. induction d as [|[k0 v0] d IH]; simpl.
  - apply String.eqb_neq in Hne. rewrite Hne. reflexivity.
  - destruct (String.eqb_spec k k0) as [->|Hk]; simpl.
    + apply String.eqb_neq in Hne. rewrite Hne. reflexivity.
    + destruct (String.eqb k' k0); [reflexivity | exact IH].
Qed.

Lemma getattr_setattr_same (a : AlertDto) (n : string) (v : pyval) :
  getattr (setattr a n v) n = Ok v.
Proof. unfold getattr, setattr. simpl. rewrite dict_get_set_same. reflexivity. Qed.

Lemma getattr_setattr_other (a : AlertDto) (n n' : string) (v : pyval) :
  n' <> n -> getattr (setattr a n v) n' = getattr a n'.
Proof.
  intros Hne. unfold getattr, setattr. simpl. rewrite dict_get_set_other by exact Hne.
  reflexivity.
Qed.

(** A loop whose turn on [r] replaces the alert at [r] by [F] of it and
    touches nothing else.  [R] relates an alert before the loop to the
    alert after it, [Q] holds of every alert the loop went over. *)
Lemma for_each_alert (F : AlertDto -> AlertDto) (body : ref -> M unit)
    (R : AlertDto -> AlertDto -> Prop) (Q : AlertDto -> Prop) :
  (forall r w, exists w',
      body r w = (Ok tt, w') /\ trace w' = trace w /\ drawn w' = drawn w /\
      heap w' r = F (heap w r) /\ forall r', r' <> r -> heap w' r' = heap w r') ->
  (forall a, R a a) ->
  (forall a b c, R a b -> R b c -> R a c) ->
  (forall a, R a (F a)) ->
  (forall a, Q (F a)) ->
  forall l w, exists w',
    for_each l body w = (Ok tt, w') /\ trace w' = trace w /\ drawn w' = drawn w /\
    forall r, R (heap w r) (heap w' r) /\
              (In r l -> Q (heap w' r)) /\
              (~ In r l -> heap w' r = heap w r).
Proof.
  intros Hbody Hrefl Htrans HRF HQF. induction l as [|r0 l IH]; intros w; simpl.
  - exists w. repeat split; auto. intros [].
  - unfold bind. destruct (Hbody r0 w) as (w1 & Hstep & Htr1 & Hdr1 & Hat & Hother).
    rewrite Hstep. destruct (IH w1) as (w' & Hrun & Htr & Hdr & Hinv).
    exists w'. split; [exact Hrun|]. split; [congruence|]. split; [congruence|].
    intros r. destruct (Hinv r) as (HR & HQ & Hframe).
    assert (HR1 : R (heap w r) (heap w1 r)).
    { destruct (Nat.eq_dec r r0) as [->|Hne].
      - rewrite Hat. apply HRF.
      - rewrite (Hother r Hne). apply Hrefl. }
    split; [exact (Htrans _ _ _ HR1 HR)|]. split.
    + intros [<-|Hin]; [|exact (HQ Hin)].
      destruct (in_dec Nat.eq_dec r0 l) as [Hin|Hout]; [exact (HQ Hin)|].
      rewrite (Hframe Hout), Hat. apply HQF.
    + intros Hout. rewrite Hframe by tauto. apply Hother. intros ->. apply Hout. left. reflexivity.
Qed.

Lemma modify_effect (f : AlertDto -> AlertDto) (r : ref) (w : world) :
  exists w',
    modify r f w = (Ok tt, w') /\ trace w' = trace w /\ drawn w' = drawn w /\
    heap w' r = f (heap w r) /\ forall r', r' <> r -> heap w' r' = heap w r'.
Proof.
  eexists. split; [reflexivity|]. simpl. rewrite Nat.eqb_refl.
  repeat split. intros r' Hne. apply Nat.eqb_neq in Hne. rewrite Hne. reflexivity.
Qed.

(** ** get_alerts *)

(** [get_alerts] returns what [_get_alerts] fetched, with the id of the
    provider stamped on every fetched alert; the other attributes of
    those alerts, the alerts that were not fetched and the trace are left
    as [_get_alerts] left them. *)
Theorem get_alerts_stamps_provider_id `{Provider} (w w0 : world) (alerts : list ref) :
  _get_alerts w = (Ok alerts, w0) ->
  exists w1,
    get_alerts w = (Ok alerts, w1) /\
    trace w1 = trace w0 /\
    (forall r, In r alerts -> getattr (heap w1 r) "providerId" = Ok (PStr provider_id)) /\
    (forall r n, n <> "providerId" -> getattr (heap w1 r) n = getattr (heap w0 r) n) /\
    (forall r, ~ In r alerts -> heap w1 r = heap w0 r).
Proof.
  intros Hfetch. unfold get_alerts, bind. rewrite Hfetch.
  destruct (for_each_alert
              (fun a => setattr a "providerId" (PStr provider_id))
              (fun alert => modify alert (fun a => setattr a "providerId" (PStr provider_id)))
              (fun a b => forall n, n <> "providerId" -> getattr b n = getattr a n)
              (fun b => getattr b "providerId" = Ok (PStr provider_id))) with (l := alerts) (w := w0)
    as (w1 & Hrun & Htr & _ & Hinv).
  - intros r w'. apply modify_effect.
  - reflexivity.
  - intros a b c Hab Hbc n Hn. rewrite (Hbc n Hn). apply Hab, Hn.
  - intros a n Hn. apply getattr_setattr_other, Hn.
  - intros a. apply getattr_setattr_same.
  - rewrite Hrun. exists w1. split; [reflexivity|]. split; [exact Htr|].
    split; [|split].
    + intros r Hr. apply (Hinv r), Hr.
    + intros r n Hn. apply (Hinv r), Hn.
    + intros r Hr. apply (Hinv r), Hr.
Qed.

Lemma get_alerts_stamps_provider_id_witness :
  exists w1,
    @get_alerts (Demo.provider Demo.no_context [0; 2]) (Demo.world_of Demo.three_alerts)
    = (Ok [0; 2], w1) /\
    trace w1 = trace (Demo.world_of Demo.three_alerts) /\
    (forall r, In r [0; 2] -> getattr (heap w1 r) "providerId" = Ok (PStr "demo-1")) /\
    (forall r n, n <> "providerId" ->
       getattr (heap w1 r) n = getattr (heap (Demo.world_of Demo.three_alerts) r) n) /\
    (forall r, ~ In r [0; 2] -> heap w1 r = heap (Demo.world_of Demo.three_alerts) r).
Proof.
  apply (@get_alerts_stamps_provider_id (Demo.provider Demo.no_context [0; 2])).
  reflexivity.
Defined.

(** A failure of [_get_alerts] leaves [get_alerts] as it is: no alert is
    touched. *)
Lemma get_alerts_propagates `{Provider} (w w0 : world) (e : exn) :
  _get_alerts w = (Raise e, w0) -> get_alerts w = (Raise e, w0).
Proof. intros Hfetch. unfold get_alerts, bind. rewrite Hfetch. reflexivity. Qed.

(** ** Overlaying stored enrichments *)

Lemma fold_setattr_frame (value : string -> pyval) (ks : list string) (k : string) :
  forall a, ~ In k ks ->
  getattr (fold_left (fun a e => setattr a e (value e)) ks a) k = getattr a k.
Proof.
  induction ks as [|k0 ks IH]; intros a Hout; simpl; [reflexivity|].
  rewrite IH by (intros Hin; apply Hout; right; exact Hin).
  apply getattr_setattr_other. intros ->. apply Hout. left. reflexivity.
Qed.

Lemma fold_setattr_sets (value : string -> pyval) (ks : list string) (k : string) :
  forall a, In k ks ->
  getattr (fold_left (fun a e => setattr a e (value e)) ks a) k = Ok (value k).
Proof.
  induction ks as [|k0 ks IH]; intros a Hin; simpl; [destruct Hin|].
  destruct (in_dec string_dec k ks) as [Hlater|Hnot]; [apply IH, Hlater|].
  destruct Hin as [->|Hin]; [|contradiction].
  rewrite fold_setattr_frame by exact Hnot. apply getattr_setattr_same.
Qed.

(** One stored row reaches every alert of the group of its fingerprint and
    no other alert: each key of the row becomes an attribute holding the
    stored value, whatever the alert held and whatever the helper for
    deleted and assignees did before; the trace does not change. *)
Theorem enrich_group_overlays `{Collaborators} (grouped_alerts : list (pyval * list ref))
    (row : AlertEnrichment) (group : list ref) (w : world) :
  assoc_get grouped_alerts (PStr (alert_fingerprint row)) = Some group ->
  exists w',
    enrich_group grouped_alerts (Some row) w = (Ok tt, w') /\
    trace w' = trace w /\
    (forall r k, In r group -> In k (map fst (enrichments row)) ->
       getattr (heap w' r) k = Ok (dict_get_default (enrichments row) k PNone)) /\
    (forall r, ~ In r group -> heap w' r = heap w r).
Proof.
  intros Hgroup. unfold enrich_group. rewrite Hgroup.
  destruct (for_each_alert
    (fun a => overlay (enrichments row)
                (parse_and_enrich_deleted_and_assignees a (enrichments row)))
    (fun alert_to_enrich =>
       modify alert_to_enrich
         (fun a => parse_and_enrich_deleted_and_assignees a (enrichments row)) ;;;
       modify alert_to_enrich (overlay (enrichments row)))
    (fun _ _ => True)
    (fun b => forall k, In k (map fst (enrichments row)) ->
       getattr b k = Ok (dict_get_default (enrichments row) k PNone)))
    with (l := group) (w := w) as (w' & Hrun & Htr & _ & Hinv); auto.
  - intros r w0. eexists. split; [reflexivity|]. simpl. rewrite !Nat.eqb_refl.
    repeat split. intros r' Hne. apply Nat.eqb_neq in Hne. rewrite Hne. reflexivity.
  - intros a k Hk. unfold overlay. apply fold_setattr_sets with
      (value := fun e => dict_get_default (enrichments row) e PNone). exact Hk.
  - exists w'. split; [exact Hrun|]. split; [exact Htr|]. split.
    + intros r k Hr Hk. destruct (Hinv r) as (_ & HQ & _). apply HQ; assumption.
    + intros r Hr. apply (Hinv r), Hr.
Qed.

Lemma enrich_group_overlays_witness :
  let row := mkAlertEnrichment "f1" [("note", PStr "seen"); ("name", PStr "renamed")] in
  exists w',
    @enrich_group Demo.collaborators [(PStr "f1", [0; 2]); (PStr "f2", [1])] (Some row)
       (Demo.world_of Demo.three_alerts) = (Ok tt, w') /\
    trace w' = trace (Demo.world_of Demo.three_alerts) /\
    (forall r k, In r [0; 2] -> In k (map fst (enrichments row)) ->
       getattr (heap w' r) k = Ok (dict_get_default (enrichments row) k PNone)) /\
    (forall r, ~ In r [0; 2] -> heap w' r = heap (Demo.world_of Demo.three_alerts) r).
Proof.
  cbv zeta. apply (@enrich_group_overlays Demo.collaborators). reflexivity.
Defined.

(** A row whose fingerprint has no group makes the loop raise [TypeError]:
    the lookup gives [None], which cannot be iterated. *)
Lemma enrich_group_unknown `{Collaborators} (grouped_alerts : list (pyval * list ref))
    (row : AlertEnrichment) (w : world) :
  assoc_get grouped_alerts (PStr (alert_fingerprint row)) = None ->
  enrich_group grouped_alerts (Some row) w = (Raise TypeError, w).
Proof. intros Hnone. unfold enrich_group. rewrite Hnone. reflexivity. Qed.

(** ** The stages of get_alerts_by_fingerprint *)

Lemma map_str_group_inj (gs gs' : list (string * list ref)) :
  map str_group gs = map str_group gs' -> gs = gs'.
Proof.
  revert gs'. induction gs as [|[a g] gs IH]; intros [|[a' g'] gs'] Heq;
    try discriminate; [reflexivity|].
  simpl in Heq. unfold str_group in Heq at 1 2. simpl in Heq.
  injection Heq as -> -> Hrest. f_equal. apply IH, Hrest.
Qed.

(** The keys of the runs come in the order of the sorted list. *)
Lemma groupby_keys_sorted (ps : list (string * ref)) :
  StronglySorted str_le (map fst ps) ->
  forall gs, groupby (map str_keyed ps) = map str_group gs ->
  StronglySorted str_le (map fst gs).
Proof.
  induction ps as [|[a r] ps IH]; intros Hs gs Hg.
  - destruct gs; [constructor | discriminate].
  - simpl in Hs. inversion Hs as [|? ? Hs' Hall]; subst.
    destruct (groupby_str ps Hs') as (gs0 & Hrun & _ & Hkeys & _).
    specialize (IH Hs' gs0 Hrun).
    simpl in Hg. rewrite Hrun in Hg.
    destruct gs0 as [|[a' g'] rest]; simpl in Hg.
    + assert (Hg' : map str_group [(a, [r])] = map str_group gs) by exact Hg.
      apply map_str_group_inj in Hg'. subst gs. repeat constructor.
    + destruct (String.eqb_spec a a') as [<-|Hne].
      * assert (Hg' : map str_group ((a, r :: g') :: rest) = map str_group gs) by exact Hg.
        apply map_str_group_inj in Hg'. subst gs. exact IH.
      * assert (Hg' : map str_group ((a, [r]) :: (a', g') :: rest) = map str_group gs)
          by exact Hg.
        apply map_str_group_inj in Hg'. subst gs.
        cbn [map fst]. constructor; [exact IH|].
        apply List.Forall_forall. intros b Hb.
        rewrite List.Forall_forall in Hall. apply Hall, Hkeys. exact Hb.
Qed.

Lemma sorted_nodup_strict (l : list string) :
  StronglySorted str_le l -> List.NoDup l -> StronglySorted str_lt l.
Proof.
  induction 1 as [|a l Hs IH Hall]; intros Hnd; [constructor|].
  apply List.NoDup_cons_iff in Hnd. destruct Hnd as [Hout Hnd].
  constructor; [apply IH, Hnd|].
  apply List.Forall_forall. intros b Hb.
  rewrite List.Forall_forall in Hall.
  apply string_ltb_total; [apply Hall, Hb | intros ->; contradiction].
Qed.

(** Up to the call of the store: the groups, and what is left to run. *)
Lemma get_alerts_by_fingerprint_stages `{Collaborators} `{Provider}
    (tenant : string) (w w1 : world) (alerts : list ref) :
  get_alerts w = (Ok alerts, w1) ->
  alerts <> [] ->
  (forall r, In r alerts -> carries_fingerprint (heap w1) r) ->
  exists gs,
    get_alerts_by_fingerprint tenant w
    = (emit (CallGetEnrichments tenant (map fst (map str_group gs))) ;;;
       pulled_alerts_enrichments <-
         lift (get_enrichments tenant (map fst (map str_group gs))) ;;
       for_each pulled_alerts_enrichments (enrich_group (map str_group gs)) ;;;
       ret (map str_group gs)) w1 /\
    StronglySorted str_lt (map fst gs) /\
    (forall a, In a (map fst gs) <-> In a (map (fingerprint_text (heap w1)) alerts)) /\
    (forall a g, In (a, g) gs ->
       g = List.filter (fun r => String.eqb (fingerprint_text (heap w1) r) a) alerts).
Proof.
  intros Hget Hne Hcarry.
  unfold get_alerts_by_fingerprint, bind at 1. rewrite Hget.
  destruct alerts as [|r0 rest] eqn:Halerts; [congruence|].
  cbv beta iota. rewrite <- Halerts in *.
  unfold sorted_by_attr. unfold bind at 1 2 3 4 5.
  rewrite (map_m_with_key alerts w1 Hcarry). unfold lift at 1.
  destruct (sort_by_key_str (map (with_text (heap w1)) alerts))
    as (ps & Hsort & Hperm & Hsorted & Hstable).
  rewrite Hsort. unfold ret at 1.
  destruct (with_text_fixed _ _ _ Hperm) as [Hfix Hrefs].
  replace (map snd (map str_keyed ps)) with (map snd ps)
    by (rewrite map_map; reflexivity).
  rewrite map_m_with_key.
  2:{ intros r Hr. apply Hcarry. apply (Permutation_in _ Hrefs). exact Hr. }
  rewrite Hfix.
  pose proof (sorted_str_le_strong _ Hsorted) as Hstrong.
  destruct (groupby_str ps Hstrong) as (gs & Hgroups & Hcat & Hkeys & Hnd & _ & Hfil).
  pose proof (groupby_keys_sorted ps Hstrong gs Hgroups) as Hkeys_sorted.
  rewrite Hgroups.
  pose proof (dict_of_groups_str gs [] Hnd) as Hdict. simpl in Hdict.
  unfold lift at 1. rewrite Hdict.
  exists gs. split; [reflexivity|]. split; [apply sorted_nodup_strict; assumption|]. split.
  - intros a. rewrite Hkeys.
    rewrite (Permutation_map fst Hperm) at 1. rewrite map_map. simpl. reflexivity.
  - intros a g Hg. rewrite (Hfil a g Hg), Hstable. apply filter_with_text.
Qed.

(** Each group holds the fetched alerts of its fingerprint in the order
    the provider returned them: the code sorts by fingerprint, with a
    stable sort, and by nothing else. *)
Theorem groups_in_fetch_order `{Collaborators} `{Provider}
    (tenant : string) (w w1 : world) (alerts : list ref) :
  get_alerts w = (Ok alerts, w1) ->
  (forall r, In r alerts -> carries_fingerprint (heap w1) r) ->
  (forall fingerprints, exists rows,
     get_enrichments tenant fingerprints = Ok rows /\
     forall row, In (Some row) rows -> In (PStr (alert_fingerprint row)) fingerprints) ->
  exists groups w2,
    get_alerts_by_fingerprint tenant w = (Ok groups, w2) /\
    forall k g, In (k, g) groups ->
      exists a, k = PStr a /\
        g = List.filter (fun r => String.eqb (fingerprint_text (heap w1) r) a) alerts.
Proof.
  intros Hget Hcarry Hstore.
  destruct (get_alerts_by_fingerprint_groups tenant w w1 alerts Hget Hcarry Hstore)
    as (gs & w2 & Hrun & _ & _ & _ & Hfil).
  exists (map str_group gs), w2. split; [exact Hrun|].
  intros k g Hg. apply in_map_iff in Hg. destruct Hg as ([a g0] & Heq & Hg).
  unfold str_group in Heq. simpl in Heq. injection Heq as <- <-.
  exists a. split; [reflexivity | apply Hfil, Hg].
Qed.

Lemma groups_in_fetch_order_witness :
  let P := Demo.provider Demo.no_context [2; 1; 0] in
  let w := Demo.world_of Demo.three_alerts in
  let w1 := snd (@get_alerts P w) in
  exists groups w2,
    @get_alerts_by_fingerprint Demo.collaborators P "tenant" w = (Ok groups, w2) /\
    forall k g, In (k, g) groups ->
      exists a, k = PStr a /\
        g = List.filter (fun r => String.eqb (fingerprint_text (heap w1) r) a) [2; 1; 0].
Proof.
  cbv zeta.
  apply (@groups_in_fetch_order Demo.collaborators
           (Demo.provider Demo.no_context [2; 1; 0]) "tenant"
           (Demo.world_of Demo.three_alerts)).
  - reflexivity.
  - intros r [<- | [<- | [<- | []]]]; eexists; vm_compute; reflexivity.
  - apply demo_store_answers_asked.
Defined.



Lemma assoc_get_str_none (gs : list (string * list ref)) (a : string) :
  ~ In a (map fst gs) -> assoc_get (map str_group gs) (PStr a) = None.
Proof.
  induction gs as [|[b h] gs IH]; simpl; [reflexivity|].
  intros Hout. destruct (String.eqb_spec a b) as [->|Hne]; [exfalso; apply Hout; left; reflexivity|].
  apply IH. intros Hin. apply Hout. right. exact Hin.
Qed.

Lemma enrich_rows_unknown `{Collaborators} (gs : list (string * list ref))
    (rows : list (option AlertEnrichment)) :
  (exists row, In (Some row) rows /\ ~ In (alert_fingerprint row) (map fst gs)) ->
  forall w, exists w',
    for_each rows (enrich_group (map str_group gs)) w = (Raise TypeError, w') /\
    trace w' = trace w.
Proof.
  induction rows as [|row0 rows IH]; intros (row & Hin & Hunknown) w; [destruct Hin|].
  cbn [for_each]. unfold bind at 1.
  destruct row0 as [row0|].
  - destruct (in_dec string_dec (alert_fingerprint row0) (map fst gs)) as [Hknown|Hnot].
    + destruct (assoc_get_str gs _ Hknown) as [g Hg].
      unfold enrich_group at 1. rewrite Hg.
      destruct (for_each_modify
                  (fun a => parse_and_enrich_deleted_and_assignees a (enrichments row0))
                  (overlay (enrichments row0)) g w) as (w1 & Hrun & Htr).
      rewrite Hrun.
      destruct (IH) with (w := w1) as (w' & Hrest & Htr').
      { exists row. split; [|exact Hunknown].
        destruct Hin as [Heq|Hin]; [|exact Hin].
        injection Heq as ->. contradiction. }
      exists w'. split; [exact Hrest | congruence].
    + rewrite (enrich_group_unknown _ row0 w (assoc_get_str_none gs _ Hnot)).
      exists w. split; reflexivity.
  - simpl. apply IH. exists row. split; [|exact Hunknown].
    destruct Hin as [Heq|Hin]; [discriminate | exact Hin].
Qed.

(** When the store answers with a row of a fingerprint that no fetched
    alert has, [get_alerts_by_fingerprint] raises [TypeError] instead of
    returning the groups. *)
Theorem get_alerts_by_fingerprint_unknown_row `{Collaborators} `{Provider}
    (tenant : string) (w w1 : world) (alerts : list ref)
    (rows : list (option AlertEnrichment)) (row : AlertEnrichment) :
  get_alerts w = (Ok alerts, w1) ->
  alerts <> [] ->
  (forall r, In r alerts -> carries_fingerprint (heap w1) r) ->
  (forall fingerprints, get_enrichments tenant fingerprints = Ok rows) ->
  In (Some row) rows ->
  (forall r, In r alerts -> fingerprint_text (heap w1) r <> alert_fingerprint row) ->
  exists w2, get_alerts_by_fingerprint tenant w = (Raise TypeError, w2).
Proof.
  intros Hget Hne Hcarry Hstore Hrow Hunknown.
  destruct (get_alerts_by_fingerprint_stages tenant w w1 alerts Hget Hne Hcarry)
    as (gs & Hrun & _ & Hkeys & _).
  rewrite Hrun. unfold bind at 1. unfold emit at 1. unfold bind at 1. unfold lift at 1.
  rewrite Hstore. unfold bind.
  match goal with |- context [for_each rows _ ?w0] =>
    destruct (enrich_rows_unknown gs rows) with (w := w0) as (w2 & Hloop & _) end.
  { exists row. split; [exact Hrow|]. intros Hin. apply Hkeys in Hin.
    apply in_map_iff in Hin. destruct Hin as (r & Heq & Hr).
    exact (Hunknown r Hr Heq). }
  exists w2. rewrite Hloop. reflexivity.
Qed.

Lemma get_alerts_by_fingerprint_unknown_row_witness :
  exists w2,
    @get_alerts_by_fingerprint stale_store (Demo.provider Demo.no_context [0; 1]) "tenant"
       (Demo.world_of Demo.three_alerts) = (Raise TypeError, w2).
Proof.
  apply (@get_alerts_by_fingerprint_unknown_row stale_store
           (Demo.provider Demo.no_context [0; 1]) "tenant"
           (Demo.world_of Demo.three_alerts)
           (snd (@get_alerts (Demo.provider Demo.no_context [0; 1])
                             (Demo.world_of Demo.three_alerts)))
           [0; 1]
           [Some (mkAlertEnrichment "gone" [("note", PStr "old")])]
           (mkAlertEnrichment "gone" [("note", PStr "old")])).
  - reflexivity.
  - discriminate.
  - intros r [<- | [<- | []]]; eexists; vm_compute; reflexivity.
  - intros fingerprints. reflexivity.
  - left. reflexivity.
  - intros r [<- | [<- | []]]; vm_compute; discriminate.
Defined.

(** ** Alerts without a fingerprint *)

Lemma map_m_with_key_any (name : string) (l : list ref) (w : world) :
  (forall r, In r l -> exists v, getattr (heap w r) name = Ok v) ->
  map_m (with_key name) l w
  = (Ok (map (fun r => (attr_or_none (heap w) name r, r)) l), w).
Proof.
  induction l as [|r l IH]; intros Hall; simpl; [reflexivity|].
  unfold bind at 1. unfold with_key at 1. unfold bind, deref, lift, ret.
  destruct (Hall r (or_introl eq_refl)) as [v Hv]. rewrite Hv.
  fold (@bind (list (pyval * ref))).
  unfold bind. rewrite IH by (intros r' Hr'; apply Hall; right; exact Hr').
  unfold attr_or_none. rewrite Hv. reflexivity.
Qed.

Lemma py_lt_none_right (a : pyval) : py_lt a PNone = Raise TypeError.
Proof. destruct a; reflexivity. Qed.

Lemma py_lt_none_left (b : pyval) : py_lt PNone b = Raise TypeError.
Proof. destruct b; reflexivity. Qed.

Lemma py_lt_error (a b : pyval) (e : exn) : py_lt a b = Raise e -> e = TypeError.
Proof.
  unfold py_lt. destruct (as_number a), (as_number b); try discriminate;
    destruct a, b; try discriminate; intros Heq; injection Heq as <-; reflexivity.
Qed.

Lemma insert_by_key_outcome (x : pyval * ref) (l : list (pyval * ref)) :
  (exists s, insert_by_key x l = Ok s /\ length s = S (length l)) \/
  insert_by_key x l = Raise TypeError.
Proof.
  induction l as [|y l IH]; simpl; [left; eexists; split; reflexivity|].
  destruct (py_lt (fst y) (fst x)) as [[|]|e] eqn:Hlt.
  - destruct IH as [(s & -> & Hlen)| ->]; [left|right; reflexivity].
    eexists. split; [reflexivity|]. simpl. rewrite Hlen. reflexivity.
  - left. eexists. split; reflexivity.
  - right. rewrite (py_lt_error _ _ _ Hlt). reflexivity.
Qed.

Lemma sort_by_key_outcome (l : list (pyval * ref)) :
  (exists s, sort_by_key l = Ok s /\ length s = length l) \/
  sort_by_key l = Raise TypeError.
Proof.
  induction l as [|x l IH]; simpl; [left; eexists; split; reflexivity|].
  destruct IH as [(s & -> & Hlen)| ->]; [|right; reflexivity].
  destruct (insert_by_key_outcome x s) as [(s' & Hins & Hlen')|Hins]; rewrite Hins.
  - left. eexists. split; [reflexivity|]. congruence.
  - right. reflexivity.
Qed.

(** Two keys or more, one of them [None]: the sort raises. *)
Lemma sort_by_key_none (l : list (pyval * ref)) :
  2 <= length l ->
  (exists r, In (PNone, r) l) ->
  sort_by_key l = Raise TypeError.
Proof.
  induction l as [|x l IH]; intros Hlen (r & Hin); [destruct Hin|].
  cbn [sort_by_key].
  destruct (sort_by_key_outcome l) as [(s & Hsort & Hslen)|Hsort]; rewrite Hsort;
    [|reflexivity].
  destruct s as [|y s]; [simpl in *; lia|].
  cbn [insert_by_key].
  destruct Hin as [->|Hin].
  - cbn [fst]. rewrite py_lt_none_right. reflexivity.
  - destruct l as [|z [|z' l]].
    + destruct Hin.
    + destruct Hin as [->|[]]. simpl in Hsort. injection Hsort as <- <-.
      cbn [fst]. rewrite py_lt_none_left. reflexivity.
    + rewrite IH in Hsort; [discriminate | simpl; lia | exists r; exact Hin].
Qed.

(** Among two or more fetched alerts, one whose fingerprint is [None] makes
    [get_alerts_by_fingerprint] raise [TypeError] out of the sort, before
    the store is read: [None] cannot be ordered against anything. *)
Theorem get_alerts_by_fingerprint_none_among_many `{Collaborators} `{Provider}
    (tenant : string) (w w1 : world) (alerts : list ref) (r0 : ref) :
  get_alerts w = (Ok alerts, w1) ->
  2 <= length alerts ->
  (forall r, In r alerts -> exists v, getattr (heap w1 r) "fingerprint" = Ok v) ->
  In r0 alerts ->
  getattr (heap w1 r0) "fingerprint" = Ok PNone ->
  get_alerts_by_fingerprint tenant w = (Raise TypeError, w1).
Proof.
  intros Hget Hlen Hattr Hin Hnone.
  unfold get_alerts_by_fingerprint, bind at 1. rewrite Hget.
  destruct alerts as [|a0 rest] eqn:Halerts; [simpl in Hlen; lia|].
  cbv beta iota. rewrite <- Halerts in *.
  unfold sorted_by_attr. unfold bind at 1 2.
  rewrite (map_m_with_key_any "fingerprint" alerts w1 Hattr). unfold lift at 1.
  rewrite sort_by_key_none; [reflexivity | rewrite length_map; exact Hlen |].
  exists r0. apply in_map_iff. exists r0. split; [|exact Hin].
  unfold attr_or_none. rewrite Hnone. reflexivity.
Qed.

Lemma get_alerts_by_fingerprint_none_among_many_witness :
  let objects := [Demo.alert "a" "f1" Demo.t1;
                  mkAlertDto [("name", PStr "b"); ("fingerprint", PNone)]] in
  let P := Demo.provider Demo.no_context [0; 1] in
  @get_alerts_by_fingerprint Demo.collaborators P "tenant" (Demo.world_of objects)
  = (Raise TypeError, snd (@get_alerts P (Demo.world_of objects))).
Proof.
  cbv zeta.
  apply (@get_alerts_by_fingerprint_none_among_many Demo.collaborators
           (Demo.provider Demo.no_context [0; 1]) "tenant" _ _ [0; 1] 1).
  - reflexivity.
  - simpl. lia.
  - intros r [<- | [<- | []]]; eexists; vm_compute; reflexivity.
  - right. left. reflexivity.
  - vm_compute. reflexivity.
Defined.

(** A lone fetched alert whose fingerprint is [None] is no error: it is
    returned under the key [None], and the store is asked about [None]. *)
Theorem get_alerts_by_fingerprint_lone_none `{Collaborators} `{Provider}
    (tenant : string) (w w1 : world) (r : ref) :
  get_alerts w = (Ok [r], w1) ->
  getattr (heap w1 r) "fingerprint" = Ok PNone ->
  get_enrichments tenant [PNone] = Ok [] ->
  get_alerts_by_fingerprint tenant w
  = (Ok [(PNone, [r])],
     mkWorld (heap w1) (trace w1 ++ [CallGetEnrichments tenant [PNone]]) (drawn w1)).
Proof.
  intros Hget Hnone Hstore.
  unfold get_alerts_by_fingerprint, bind at 1. rewrite Hget. cbv beta iota.
  unfold sorted_by_attr, bind, with_key, map_m, bind, deref, lift, ret.
  rewrite Hnone. simpl. rewrite Hnone. simpl. rewrite Hstore. reflexivity.
Qed.

Lemma get_alerts_by_fingerprint_lone_none_witness :
  let objects := [mkAlertDto [("name", PStr "b"); ("fingerprint", PNone)]] in
  let P := Demo.provider Demo.no_context [0] in
  let w1 := snd (@get_alerts P (Demo.world_of objects)) in
  @get_alerts_by_fingerprint Demo.collaborators P "tenant" (Demo.world_of objects)
  = (Ok [(PNone, [0])],
     mkWorld (heap w1) (trace w1 ++ [CallGetEnrichments "tenant" [PNone]]) (drawn w1)).
Proof.
  cbv zeta.
  apply (@get_alerts_by_fingerprint_lone_none Demo.collaborators
           (Demo.provider Demo.no_context [0]) "tenant"); reflexivity.
Defined.

(** ** The outbound push *)



(** A failure of the request itself is not caught: the post is made
    outside the [try], so an exception of [requests.post] leaves
    [_push_alert]. *)
Theorem push_alert_request_failure `{Collaborators} `{Provider}
    (alert_data : dict) (base : string) (e : exn) (w : world) :
  KEEP_API_URL = Some base ->
  (forall url body key, requests_post url body key = Raise e) ->
  exists w',
    _push_alert (PDict alert_data) w = (Raise e, w') /\
    List.filter is_post_call (trace w') <> List.filter is_post_call (trace w).
Proof.
  intros Hurl Hpost. unfold _push_alert. cbn [isinstance_dict negb].
  unfold bind at 1. unfold ret at 1.
  unfold bind at 1. unfold draw_uuid4 at 1. unfold bind at 1. unfold draw_uuid4 at 1.
  cbn [drawn heap trace]. rewrite Hurl.
  unfold bind at 1. unfold emit at 1. unfold bind at 1. unfold lift at 1.
  rewrite Hpost. eexists. split; [reflexivity|].
  cbn [trace]. rewrite List.filter_app. cbn [List.filter is_post_call].
  intros Heq. apply (f_equal (@length event)) in Heq.
  rewrite length_app in Heq. simpl in Heq. lia.
Qed.

Lemma push_alert_request_failure_witness :
  exists w',
    @_push_alert offline (Demo.provider Demo.no_context [])
       (PDict [("name", PStr "cpu high")]) (Demo.world_of [])
    = (Raise (Exception "ConnectionError"), w') /\
    List.filter is_post_call (trace w') <> List.filter is_post_call (trace (Demo.world_of [])).
Proof.
  apply (@push_alert_request_failure offline (Demo.provider Demo.no_context [])
           _ "http://localhost:8080");
    [reflexivity | intros url body key; reflexivity].
Defined.

(** Without [KEEP_API_URL] in the environment a well-formed alert is not
    dropped but makes [_push_alert] raise [KeyError]; nothing is posted
    or logged. *)
Theorem push_alert_without_url `{Collaborators} `{Provider} (alert_data : dict) (w : world) :
  KEEP_API_URL = None ->
  _push_alert (PDict alert_data) w
  = (Raise KeyError, mkWorld (heap w) (trace w) (S (S (drawn w)))).
Proof.
  intros Hurl. unfold _push_alert. cbn [isinstance_dict negb].
  unfold bind at 1. unfold ret at 1.
  unfold bind at 1. unfold draw_uuid4 at 1. unfold bind at 1. unfold draw_uuid4 at 1.
  cbn [drawn heap trace]. rewrite Hurl. reflexivity.
Qed.

Lemma push_alert_without_url_witness :
  @_push_alert no_url (Demo.provider Demo.no_context [])
     (PDict [("name", PStr "cpu high")]) (Demo.world_of [])
  = (Raise KeyError,
     mkWorld (heap (Demo.world_of [])) (trace (Demo.world_of []))
             (S (S (drawn (Demo.world_of []))))).
Proof.
  apply (@push_alert_without_url no_url (Demo.provider Demo.no_context [])). reflexivity.
Defined.

(** A text that [json.loads] reads as a dict is pushed exactly as that dict
    would be. *)
Theorem push_alert_json_text `{Collaborators} `{Provider}
    (alert : pyval) (alert_data : dict) (w : world) :
  isinstance_dict alert = false ->
  json_loads alert = Ok (PDict alert_data) ->
  _push_alert alert w = _push_alert (PDict alert_data) w.
Proof.
  intros Hnd Hparse. unfold _push_alert. rewrite Hnd. cbn [isinstance_dict negb].
  unfold bind at 1 3. unfold try_except, lift, ret. rewrite Hparse. reflexivity.
Qed.

Lemma push_alert_json_text_witness :
  @_push_alert Demo.collaborators (Demo.provider Demo.no_context [])
     (PStr cpu_high_text) (Demo.world_of [])
  = @_push_alert Demo.collaborators (Demo.provider Demo.no_context [])
      (PDict [("name", PStr "cpu high")]) (Demo.world_of []).
Proof.
  apply (@push_alert_json_text Demo.collaborators (Demo.provider Demo.no_context []));
    [reflexivity | vm_compute; reflexivity].
Defined.

Lemma push_alert_not_a_dict_witness :
  @_push_alert Demo.collaborators (Demo.provider Demo.no_context [])
     (PStr "[1, 2]") (Demo.world_of [])
  = (Ok tt, mkWorld (heap (Demo.world_of []))
              (trace (Demo.world_of []) ++ [Log "warning"
                 "We currently support only alert represented as a dict, dismissing alert"])
              (drawn (Demo.world_of []))).
Proof.
  apply (@push_alert_not_a_dict Demo.collaborators (Demo.provider Demo.no_context [])
           (PStr "[1, 2]") (PList [PInt 1; PInt 2]));
    [reflexivity | vm_compute; reflexivity | reflexivity].
Defined.

(** ** notify and query *)

(** Without instructions, or when [_notify] returned [None], [notify]
    enriches nothing: it leaves the world as [_notify] left it, records
    the result, and returns it, but as [None] when it is falsy (0, an
    empty text, list or dict, [False]). *)
Theorem notify_without_enrichment `{Collaborators} `{Provider} `{ProviderActions}
    (kwargs : call_kwargs) (st : provider_state) (w w1 : world) (results : pyval) :
  _notify kwargs w = (Ok results, w1) ->
  kwargs_enrich_alert kwargs = [] \/ results = PNone ->
  notify kwargs st w
  = (Ok (if truthy results then results else PNone),
     mkProviderState (results_list st ++ [results]) (dependencies st), w1).
Proof.
  intros Hrun Hquiet. unfold notify. rewrite Hrun.
  destruct Hquiet as [-> | ->]; [reflexivity|].
  destruct (kwargs_enrich_alert kwargs); reflexivity.
Qed.

Lemma notify_without_enrichment_witness :
  @notify Demo.collaborators (Demo.provider Demo.no_context []) DemoCalls.actions
     (mkKwargs None [("answer", PList [])]) DemoCalls.fresh (Demo.world_of [])
  = (Ok (if truthy (PList []) then PList [] else PNone),
     mkProviderState (results_list DemoCalls.fresh ++ [PList []])
                     (dependencies DemoCalls.fresh),
     Demo.world_of []).
Proof.
  apply (@notify_without_enrichment Demo.collaborators (Demo.provider Demo.no_context [])
           DemoCalls.actions); [reflexivity | left; reflexivity].
Defined.

(** [query] lacks the guard of [notify]: asked to enrich when [_query]
    returned [None], it raises [TypeError] from the membership test on
    [None], with the result already recorded and the store not reached. *)
Theorem query_enriching_none `{Collaborators} `{Provider} `{ProviderActions}
    (kwargs : call_kwargs) (st : provider_state) (w w1 : world) :
  _query kwargs w = (Ok PNone, w1) ->
  kwargs_enrich_alert kwargs <> [] ->
  exists w2,
    query kwargs st w
    = (Raise TypeError,
       mkProviderState (results_list st ++ [PNone]) (dependencies st), w2) /\
    store_calls (trace w2) = store_calls (trace w1).
Proof.
  intros Hrun Hinstr. unfold query. rewrite Hrun.
  destruct (kwargs_enrich_alert kwargs) as [|i l] eqn:Hk; [congruence|].
  cbn [truthy].
  rewrite (enrich_alert_extraction_fails (i :: l) PNone TypeError w1)
    by (apply extract_fingerprint_not_a_dict; [reflexivity | discriminate]).
  eexists. split; [reflexivity|]. simpl. apply store_calls_log.
Qed.

Lemma query_enriching_none_witness :
  exists w2,
    @query Demo.collaborators (Demo.provider Demo.no_context []) DemoCalls.actions
       (mkKwargs (Some [PDict [("key", PStr "x"); ("value", PStr "y")]]) [])
       DemoCalls.fresh (Demo.world_of [])
    = (Raise TypeError,
       mkProviderState (results_list DemoCalls.fresh ++ [PNone])
                       (dependencies DemoCalls.fresh), w2) /\
    store_calls (trace w2) = store_calls (trace (Demo.world_of [])).
Proof.
  apply (@query_enriching_none Demo.collaborators (Demo.provider Demo.no_context [])
           DemoCalls.actions); [reflexivity | discriminate].
Defined.

(** With instructions and results that carry a fingerprint of their own,
    [notify] and [query] both write to the store once, under that
    fingerprint, and hand back the results unchanged if the write went
    through. *)
Theorem calls_enrich_under_own_fingerprint `{Collaborators} `{Provider} `{ProviderActions}
    (kwargs : call_kwargs) (st : provider_state) (w w1 : world) (d : dict) (fp : pyval) :
  _notify kwargs w = (Ok (PDict d), w1) ->
  _query kwargs w = (Ok (PDict d), w1) ->
  kwargs_enrich_alert kwargs <> [] ->
  dict_get d "fingerprint" = Some fp ->
  truthy fp = true ->
  (forall fields, enrich_alert (tenant_id context_manager) fp fields = Ok tt) ->
  exists fields wn wq,
    fst (fst (notify kwargs st w)) = Ok (PDict d) /\
    fst (fst (query kwargs st w)) = Ok (PDict d) /\
    snd (notify kwargs st w) = wn /\ snd (query kwargs st w) = wq /\
    store_calls (trace wn)
    = store_calls (trace w1) ++ [CallEnrichAlert (tenant_id context_manager) fp fields] /\
    store_calls (trace wq) = store_calls (trace wn).
Proof.
  intros Hn Hq Hinstr Hd Htrue Hstore.
  assert (Hfp : extract_fingerprint (PDict d) = Ok fp).
  { unfold extract_fingerprint, py_contains, py_getitem, dict_contains. rewrite Hd. reflexivity. }
  unfold notify, query. rewrite Hn, Hq.
  destruct (kwargs_enrich_alert kwargs) as [|i l] eqn:Hk; [congruence|].
  cbn [truthy negb is_none orb].
  unfold _enrich_alert, bind, lift. simpl. rewrite Hfp, Htrue. simpl.
  set (w2 := mkWorld _ _ _).
  destruct (compute_enrichments_total (PDict d) (i :: l) [] w2)
    as (fields & w3 & Hrun & _ & Hcalls).
  simpl in Hrun. rewrite Hrun.
  unfold try_except, bind, logger, emit, lift, raise. simpl. rewrite Hstore. simpl.
  exists fields. eexists. eexists.
  split; [reflexivity|]. split; [reflexivity|]. split; [reflexivity|]. split; [reflexivity|].
  split; [|reflexivity].
  simpl. rewrite store_calls_log, store_calls_app, store_calls_log, Hcalls.
  subst w2. simpl. rewrite !store_calls_log. reflexivity.
Qed.

Lemma calls_enrich_under_own_fingerprint_witness :
  let P := Demo.provider Demo.no_context [] in
  let kwargs := mkKwargs (Some [PDict [("key", PStr "x"); ("value", PStr "y")]])
                         [("answer", PDict [("fingerprint", PStr "fp")])] in
  let w := Demo.world_of [] in
  exists fields wn wq,
    fst (fst (@notify Demo.collaborators P DemoCalls.actions kwargs DemoCalls.fresh w))
    = Ok (PDict [("fingerprint", PStr "fp")]) /\
    fst (fst (@query Demo.collaborators P DemoCalls.actions kwargs DemoCalls.fresh w))
    = Ok (PDict [("fingerprint", PStr "fp")]) /\
    snd (@notify Demo.collaborators P DemoCalls.actions kwargs DemoCalls.fresh w) = wn /\
    snd (@query Demo.collaborators P DemoCalls.actions kwargs DemoCalls.fresh w) = wq /\
    store_calls (trace wn)
    = store_calls (trace w) ++ [CallEnrichAlert (tenant_id (@context_manager P)) (PStr "fp") fields] /\
    store_calls (trace wq) = store_calls (trace wn).
Proof.
  cbv zeta.
  apply (@calls_enrich_under_own_fingerprint Demo.collaborators
           (Demo.provider Demo.no_context []) DemoCalls.actions);
    try reflexivity; discriminate.
Defined.

Lemma set_add_nodup (x : string) (s : list string) :
  List.NoDup s -> List.NoDup (set_add x s) /\ In x (set_add x s).
Proof.
  intros Hnd. unfold set_add. destruct (existsb (String.eqb x) s) eqn:Hmem.
  - split; [exact Hnd|]. apply existsb_exists in Hmem.
    destruct Hmem as (y & Hy & Heq). apply String.eqb_eq in Heq. subst. exact Hy.
  - split; [|apply in_or_app; right; left; reflexivity].
    apply List.NoDup_app; [exact Hnd | repeat constructor; intros [] |].
    intros y Hy [Heq|[]]. subst y.
    assert (existsb (String.eqb x) s = true)
      by (apply existsb_exists; exists x; split; [exact Hy | apply String.eqb_refl]).
    congruence.
Qed.

(** [query] returns what [_query] returned, falsy or not, and keeps the
    dependencies a set: nothing is removed or repeated, the class of the
    first element of a non-empty list is in it afterwards, and so is the
    class of any other truthy result; a falsy result adds nothing. *)
Theorem query_records_dependency `{Collaborators} `{Provider} `{ProviderActions}
    (kwargs : call_kwargs) (st : provider_state) (w w1 : world) (results : pyval) :
  _query kwargs w = (Ok results, w1) ->
  kwargs_enrich_alert kwargs = [] ->
  List.NoDup (dependencies st) ->
  exists deps,
    query kwargs st w
    = (Ok results, mkProviderState (results_list st ++ [results]) deps, w1) /\
    List.NoDup deps /\
    (forall c, In c (dependencies st) -> In c deps) /\
    (forall first l, results = PList (first :: l) -> In (py_class first) deps) /\
    (isinstance_list_or_dict results = false \/ isinstance_dict results = true ->
     truthy results = true -> In (py_class results) deps) /\
    (truthy results = false -> deps = dependencies st).
Proof.
  intros Hrun Hquiet Hnd. unfold query. rewrite Hrun, Hquiet. cbn [truthy].
  eexists. split; [reflexivity|].
  assert (Hkeep : forall x c, In c (dependencies st) -> In c (set_add x (dependencies st))).
  { intros x c Hc. unfold set_add. destruct (existsb _ _); [exact Hc|].
    apply in_or_app. left. exact Hc. }
  destruct results as [|b|z|s|[|first l]|d]; cbn [truthy];
    repeat match goal with
           | |- context [if ?c then _ else _] => destruct c eqn:?
           end;
    (split; [first [exact Hnd | apply set_add_nodup, Hnd]|]);
    (split; [first [intros c Hc; exact Hc | intros c Hc; apply Hkeep, Hc]|]);
    (split; [intros f0 l0 Heq; try discriminate Heq;
             injection Heq as <- <-; apply set_add_nodup, Hnd|]);
    (split; [intros Hkind Htrue; try discriminate Htrue;
             try (destruct Hkind; discriminate);
             apply set_add_nodup, Hnd|]);
    intros Hfalse; try discriminate Hfalse; reflexivity.
Qed.

Lemma query_records_dependency_witness :
  exists deps,
    @query Demo.collaborators (Demo.provider Demo.no_context []) DemoCalls.actions
       (mkKwargs None [("answer", PList [PStr "row"; PInt 1])])
       (mkProviderState [] ["str"; "dict"]) (Demo.world_of [])
    = (Ok (PList [PStr "row"; PInt 1]),
       mkProviderState ([] ++ [PList [PStr "row"; PInt 1]]) deps, Demo.world_of []) /\
    List.NoDup deps /\
    (forall c, In c ["str"; "dict"] -> In c deps) /\
    (forall first l, PList [PStr "row"; PInt 1] = PList (first :: l) -> In (py_class first) deps) /\
    (isinstance_list_or_dict (PList [PStr "row"; PInt 1]) = false \/
     isinstance_dict (PList [PStr "row"; PInt 1]) = true ->
     truthy (PList [PStr "row"; PInt 1]) = true ->
     In (py_class (PList [PStr "row"; PInt 1])) deps) /\
    (truthy (PList [PStr "row"; PInt 1]) = false -> deps = ["str"; "dict"]).
Proof.
  apply (@query_records_dependency Demo.collaborators (Demo.provider Demo.no_context [])
           DemoCalls.actions
           (mkKwargs None [("answer", PList [PStr "row"; PInt 1])])
           (mkProviderState [] ["str"; "dict"])).
  - reflexivity.
  - reflexivity.
  - repeat constructor; simpl; intuition discriminate.
Defined.

(** ** The type of a provider *)

Lemma lower_char_not_upper (a : ascii) : is_upper_ascii (lower_char a) = false.
Proof. destruct a as [[] [] [] [] [] [] [] []]; reflexivity. Qed.

Lemma has_upper_lower (s : string) : has_upper_ascii (lower s) = false.
Proof.
  induction s as [|a s IH]; simpl; [reflexivity|].
  rewrite lower_char_not_upper, IH. reflexivity.
Qed.

Lemma has_upper_lstrip (s : string) :
  has_upper_ascii s = false -> has_upper_ascii (lstrip s) = false.
Proof.
  induction s as [|a s IH]; simpl; [reflexivity|].
  intros Hs. apply orb_false_iff in Hs. destruct Hs as [Ha Hs].
  destruct (is_space a); [apply IH, Hs|]. simpl. rewrite Ha, Hs. reflexivity.
Qed.

Lemma has_upper_rstrip (s : string) :
  has_upper_ascii s = false -> has_upper_ascii (rstrip s) = false.
Proof.
  induction s as [|a s IH]; simpl; [reflexivity|].
  intros Hs. apply orb_false_iff in Hs. destruct Hs as [Ha Hs].
  specialize (IH Hs). destruct (rstrip s) as [|b t].
  - destruct (is_space a); simpl; [reflexivity | rewrite Ha; reflexivity].
  - cbn [has_upper_ascii] in *. rewrite Ha. exact IH.
Qed.

Lemma replace_space_shape (s : string) :
  has_space (replace_char " " "." s) = false /\
  has_upper_ascii (replace_char " " "." s) = has_upper_ascii s.
Proof.
  induction s as [|a s [IHs IHu]]; simpl; [split; reflexivity|].
  rewrite IHs, IHu. destruct (Ascii.eqb_spec a " ") as [->|Hne]; [split; reflexivity|].
  apply Ascii.eqb_neq in Hne. rewrite Hne. split; reflexivity.
Qed.

(** Whatever the class is called, the type of the provider has no space
    and no capital from A to Z in it. *)
Theorem extract_type_shape (name : string) :
  has_space (_extract_type name) = false /\
  has_upper_ascii (_extract_type name) = false.
Proof.
  unfold _extract_type. cbv zeta.
  destruct (replace_space_shape
              (strip (lower (space_before_capitals (str_remove "Provider" name)))))
    as [Hs Hu].
  split; [exact Hs|]. rewrite Hu. unfold strip.
  apply has_upper_rstrip, has_upper_lstrip, has_upper_lower.
Qed.

Lemma lower_is_not_P (a : ascii) : is_lower_ascii a = true -> Ascii.eqb "P" a = false.
Proof. destruct a as [[] [] [] [] [] [] [] []]; intros H; try discriminate H; reflexivity. Qed.

Lemma lower_is_not_upper (a : ascii) : is_lower_ascii a = true -> is_upper_ascii a = false.
Proof. destruct a as [[] [] [] [] [] [] [] []]; intros H; try discriminate H; reflexivity. Qed.

Lemma lower_is_not_space (a : ascii) :
  is_lower_ascii a = true -> is_space a = false /\ Ascii.eqb a " " = false.
Proof.
  destruct a as [[] [] [] [] [] [] [] []]; intros H; try discriminate H; split; reflexivity.
Qed.

Lemma lower_char_of_lower (a : ascii) : is_lower_ascii a = true -> lower_char a = a.
Proof. destruct a as [[] [] [] [] [] [] [] []]; intros H; try discriminate H; reflexivity. Qed.

Lemma lower_char_of_upper (a : ascii) :
  is_upper_ascii a = true -> is_lower_ascii (lower_char a) = true.
Proof. destruct a as [[] [] [] [] [] [] [] []]; intros H; try discriminate H; reflexivity. Qed.

Lemma upper_differs_from_lower (x a : ascii) :
  is_lower_ascii x = true -> is_upper_ascii a = true -> Ascii.eqb x a = false.
Proof.
  intros Hx Ha. destruct (Ascii.eqb_spec x a) as [->|]; [|reflexivity].
  rewrite (lower_is_not_upper a Hx) in Ha. discriminate.
Qed.

(** A small-letter pattern found in small letters followed by a capital
    lies within the small letters. *)
Lemma startswith_before_capital (q : string) :
  all_lower q = true ->
  forall t rest, all_lower t = true -> head_upper rest = true ->
  startswith q (t +:+ rest) = true -> startswith q t = true.
Proof.
  induction q as [|x q IH]; intros Hq t rest Ht Hrest Hfound; [destruct t; reflexivity|].
  simpl in Hq. apply andb_true_iff in Hq. destruct Hq as [Hx Hq].
  destruct t as [|y t]; simpl in *.
  - destruct rest as [|a rest]; [discriminate|]. simpl in Hrest, Hfound.
    rewrite (upper_differs_from_lower x a Hx Hrest) in Hfound. discriminate.
  - apply andb_true_iff in Ht. destruct Ht as [_ Ht].
    apply andb_true_iff in Hfound. destruct Hfound as [Hxy Hfound].
    rewrite Hxy. simpl. exact (IH Hq t rest Ht Hrest Hfound).
Qed.

Lemma remove_provider_lower (t rest : string) :
  all_lower t = true ->
  remove_from "Provider" 0 (t +:+ rest) = t +:+ remove_from "Provider" 0 rest.
Proof.
  induction t as [|a t IH]; intros Ht; [reflexivity|].
  simpl in Ht. apply andb_true_iff in Ht. destruct Ht as [Ha Ht].
  change (String a t +:+ rest) with (String a (t +:+ rest)).
  cbn [remove_from startswith]. rewrite (lower_is_not_P a Ha). cbn [andb].
  rewrite (IH Ht). reflexivity.
Qed.

Lemma glue_head_upper (ws : list string) :
  Forall (fun w => is_word w = true) ws -> head_upper (glue ws +:+ "Provider") = true.
Proof.
  intros Hws. destruct Hws as [|[|c t] ws Hw _]; [reflexivity | discriminate |].
  simpl in *. apply andb_true_iff in Hw. apply Hw.
Qed.

Lemma str_app_assoc (a b c : string) : (a +:+ b) +:+ c = a +:+ (b +:+ c).
Proof. induction a as [|x a IH]; [reflexivity | exact (f_equal (String x) IH)]. Qed.

Lemma remove_provider_word (c : ascii) (t rest : string) :
  all_lower t = true ->
  head_upper rest = true ->
  startswith "Provider" (String c t) = false ->
  remove_from "Provider" 0 (String c (t +:+ rest))
  = String c (t +:+ remove_from "Provider" 0 rest).
Proof.
  intros Ht Hrest Hfree.
  assert (Hnot : startswith "Provider" (String c (t +:+ rest)) = false).
  { destruct (startswith "Provider" (String c (t +:+ rest))) eqn:Hs; [|reflexivity].
    cbn [startswith] in Hs. apply andb_true_iff in Hs. destruct Hs as [HP Hs].
    assert (Hin : startswith "rovider" t = true)
      by (apply (startswith_before_capital "rovider" eq_refl t rest); assumption).
    cbn [startswith] in Hfree. rewrite HP in Hfree. cbn [andb] in Hfree.
    cbn [startswith] in Hin. congruence. }
  unfold remove_from at 1. fold remove_from. rewrite Hnot.
  rewrite (remove_provider_lower t rest Ht). reflexivity.
Qed.

(** Removing every [Provider] from words that do not start with it, and
    that are followed by it, removes the one at the end. *)
Lemma remove_provider_suffix (ws : list string) :
  Forall (fun w => is_word w = true) ws ->
  Forall (fun w => startswith "Provider" w = false) ws ->
  str_remove "Provider" (glue ws +:+ "Provider") = glue ws.
Proof.
  unfold str_remove. cbn [String.eqb Ascii.eqb Bool.eqb].
  induction ws as [|[|c t] ws IH]; intros Hwords Hfree.
  - reflexivity.
  - inversion Hwords; discriminate.
  - inversion Hwords as [|? ? Hw Hwords']; inversion Hfree as [|? ? Hf Hfree']; subst.
    simpl in Hw. apply andb_true_iff in Hw. destruct Hw as [Hc Ht].
    assert (Hshape : glue (String c t :: ws) +:+ "Provider"
                     = String c (t +:+ (glue ws +:+ "Provider"))).
    { cbn [glue]. rewrite str_app_assoc. reflexivity. }
    rewrite Hshape.
    rewrite (remove_provider_word c t _ Ht (glue_head_upper ws Hwords') Hf).
    rewrite (IH Hwords' Hfree'). reflexivity.
Qed.

Lemma str_app_nil_r (a : string) : a +:+ EmptyString = a.
Proof. induction a as [|x a IH]; [reflexivity | exact (f_equal (String x) IH)]. Qed.

Lemma space_before_capitals_lower (t rest : string) :
  all_lower t = true ->
  space_before_capitals (t +:+ rest) = t +:+ space_before_capitals rest.
Proof.
  induction t as [|a t IH]; intros Ht; [reflexivity|].
  simpl in Ht. apply andb_true_iff in Ht. destruct Ht as [Ha Ht].
  change (String a t +:+ rest) with (String a (t +:+ rest)).
  cbn [space_before_capitals]. rewrite (lower_is_not_upper a Ha), (IH Ht). reflexivity.
Qed.

Lemma space_before_capitals_glue (ws : list string) :
  Forall (fun w => is_word w = true) ws ->
  space_before_capitals (glue ws) = glue (map (String " ") ws).
Proof.
  induction 1 as [|[|c t] ws Hw _ IH]; [reflexivity | discriminate |].
  simpl in Hw. apply andb_true_iff in Hw. destruct Hw as [Hc Ht].
  cbn [glue map]. change (String c t +:+ glue ws) with (String c (t +:+ glue ws)).
  cbn [space_before_capitals]. rewrite Hc, (space_before_capitals_lower t _ Ht), IH.
  reflexivity.
Qed.

Lemma lower_app (a b : string) : lower (a +:+ b) = lower a +:+ lower b.
Proof. induction a as [|x a IH]; [reflexivity | exact (f_equal (String (lower_char x)) IH)]. Qed.

Lemma lower_glue (ws : list string) :
  lower (glue (map (String " ") ws)) = glue (map (String " ") (map lower ws)).
Proof.
  induction ws as [|w ws IH]; [reflexivity|].
  cbn [map glue]. rewrite lower_app, IH. reflexivity.
Qed.

Lemma lower_of_lower (t : string) : all_lower t = true -> lower t = t.
Proof.
  induction t as [|a t IH]; intros Ht; [reflexivity|].
  simpl in Ht. apply andb_true_iff in Ht. destruct Ht as [Ha Ht].
  simpl. rewrite (lower_char_of_lower a Ha), (IH Ht). reflexivity.
Qed.

(** A lowered word: small letters, at least one. *)
Lemma lower_word (w : string) :
  is_word w = true -> exists y l, lower w = String y l /\ all_lower (String y l) = true.
Proof.
  destruct w as [|c t]; [discriminate|]. simpl. intros Hw.
  apply andb_true_iff in Hw. destruct Hw as [Hc Ht].
  exists (lower_char c), t. rewrite (lower_of_lower t Ht). split; [reflexivity|].
  rewrite (lower_char_of_upper c Hc), Ht. reflexivity.
Qed.

Lemma ends_well_app (a b : string) : b <> EmptyString -> ends_well (a +:+ b) = ends_well b.
Proof.
  intros Hb. induction a as [|x a IH]; [reflexivity|].
  change (String x a +:+ b) with (String x (a +:+ b)). cbn [ends_well].
  destruct (a +:+ b) eqn:Hab; [|exact IH].
  destruct a; [simpl in Hab; contradiction | discriminate].
Qed.

Lemma ends_well_lower (l : string) :
  all_lower l = true -> l <> EmptyString -> ends_well l = true.
Proof.
  induction l as [|a l IH]; intros Hl Hne; [contradiction|].
  simpl in Hl. apply andb_true_iff in Hl. destruct Hl as [Ha Hl].
  cbn [ends_well]. destruct l as [|b l].
  - destruct (lower_is_not_space a Ha) as [-> _]. reflexivity.
  - apply IH; [exact Hl | discriminate].
Qed.

Lemma rstrip_ends_well (s : string) : ends_well s = true -> rstrip s = s.
Proof.
  induction s as [|a s IH]; intros Hs; [discriminate|].
  cbn [rstrip]. destruct s as [|b s].
  - simpl in *. destruct (is_space a); [discriminate | reflexivity].
  - cbn [ends_well] in Hs. rewrite (IH Hs). reflexivity.
Qed.

Lemma replace_char_app (a b : string) :
  replace_char " " "." (a +:+ b) = replace_char " " "." a +:+ replace_char " " "." b.
Proof.
  induction a as [|x a IH]; [reflexivity|].
  exact (f_equal (String (if Ascii.eqb x " " then "." else x)) IH).
Qed.

Lemma replace_char_lower (l : string) : all_lower l = true -> replace_char " " "." l = l.
Proof.
  induction l as [|a l IH]; intros Hl; [reflexivity|].
  simpl in Hl. apply andb_true_iff in Hl. destruct Hl as [Ha Hl].
  simpl. destruct (lower_is_not_space a Ha) as [_ ->]. rewrite (IH Hl). reflexivity.
Qed.

Lemma glue_spaced_shape (ls : list string) :
  Forall (fun l => all_lower l = true /\ l <> EmptyString) ls ->
  forall l, all_lower l = true -> l <> EmptyString ->
  ends_well (l +:+ glue (map (String " ") ls)) = true /\
  replace_char " " "." (l +:+ glue (map (String " ") ls)) = String.concat "." (l :: ls).
Proof.
  induction 1 as [|l2 ls [Hl2 Hne2] _ IH]; intros l Hl Hne.
  - cbn [map glue String.concat]. rewrite str_app_nil_r.
    split; [apply ends_well_lower; assumption | apply replace_char_lower, Hl].
  - destruct (IH l2 Hl2 Hne2) as [Hends Hrep].
    cbn [map glue].
    change (String " " l2 +:+ glue (map (String " ") ls))
      with (String " " (l2 +:+ glue (map (String " ") ls))).
    split.
    + rewrite ends_well_app by discriminate. cbn [ends_well].
      destruct (l2 +:+ glue (map (String " ") ls)) eqn:Htail; [|exact Hends].
      destruct l2; [contradiction | discriminate].
    + rewrite replace_char_app, (replace_char_lower l Hl).
      cbn [replace_char]. rewrite Hrep. reflexivity.
Qed.

(** For a class named by capitalised words followed by [Provider], none of
    the words starting with [Provider] itself, the type is the words in
    small letters joined by dots: GoogleChatProvider is google.chat. *)
Theorem extract_type_of_words (ws : list string) :
  Forall (fun w => is_word w = true) ws ->
  Forall (fun w => startswith "Provider" w = false) ws ->
  _extract_type (glue ws +:+ "Provider") = String.concat "." (map lower ws).
Proof.
  intros Hwords Hfree. unfold _extract_type. cbv zeta.
  rewrite (remove_provider_suffix ws Hwords Hfree).
  rewrite (space_before_capitals_glue ws Hwords), lower_glue.
  assert (Hls : Forall (fun l => all_lower l = true /\ l <> EmptyString) (map lower ws)).
  { clear Hfree. induction Hwords as [|w ws Hw _ IH]; [constructor|].
    cbn [map]. constructor; [|exact IH].
    destruct (lower_word w Hw) as (y & l & -> & Hl). split; [exact Hl | discriminate]. }
  destruct (map lower ws) as [|l ls]; [reflexivity|].
  inversion Hls as [|? ? [Hl Hne] Hrest]; subst.
  destruct (glue_spaced_shape ls Hrest l Hl Hne) as [Hends Hrep].
  cbn [map glue].
  change (String " " l +:+ glue (map (String " ") ls))
    with (String " " (l +:+ glue (map (String " ") ls))).
  unfold strip. cbn [lstrip is_space char_code]. 
  replace (is_space " ") with true by reflexivity.
  assert (Hhead : lstrip (l +:+ glue (map (String " ") ls)) = l +:+ glue (map (String " ") ls)).
  { destruct l as [|y l]; [contradiction|].
    simpl in Hl. apply andb_true_iff in Hl. destruct Hl as [Hy _].
    change (String y l +:+ glue (map (String " ") ls))
      with (String y (l +:+ glue (map (String " ") ls))).
    cbn [lstrip]. destruct (lower_is_not_space y Hy) as [-> _]. reflexivity. }
  rewrite Hhead, (rstrip_ends_well _ Hends). exact Hrep.
Qed.

Lemma extract_type_of_words_witness :
  _extract_type (glue ["Google"; "Chat"] +:+ "Provider")
  = String.concat "." (map lower ["Google"; "Chat"]).
Proof.
  apply extract_type_of_words; repeat constructor.
Defined.
